(** * Supabase Auth Proxy: the request pipeline of [index.js]

    A shallow embedding of the three Express routes of [index.js]
    ([/health], [/api/*] behind [verifyAuth], and the catch-all) and of the
    values they exchange with the identity provider and with the internal
    API.

    Boundary of the model.  A request is what reaches the Express router,
    after [express.json()] and [cors()] have called [next()]: [req.body] is
    the value left there by the body parser.  A response is what a handler
    asks Express to send: the status given to [res.status] (200 when none is
    given), the headers set through [res.setHeader], and the argument of
    [res.json] or [res.send].  The two [await]ed calls and the clock are
    events of an interaction tree; a [World] answers them.  Numbers are the
    integers of magnitude at most 2^53 - 1; other numbers are outside the
    model.

    Strings are byte strings.  HTTP field names and the route patterns are
    ASCII, where [String.prototype.toLowerCase] is ASCII lower-casing.

    Behaviour of the libraries that [index.js] relies on and that the
    definitions below write out:
    - Express 4 routing: route paths match without regard to letter case
      and with an optional trailing slash, [app.get] also serves HEAD,
      [app.all] serves every method, routes are tried in the order of
      registration;
    - Node: the field names of [req.headers] are lower-cased;
      [res.setHeader] keeps one value per field, names compared without
      case, and throws on a name that is not a token or a value with a
      character outside tab, U+0020 to U+007E and U+0080 to U+00FF; a
      response whose status code, cut to 32 bits, is not within 100 to 999
      cannot be written: [res.end] throws;
    - axios: a later entry of [headers] overwrites an earlier entry of the
      same field, names compared without case; [params] are appended to
      the [url]; without a [responseType], a response body that is JSON is
      handed over parsed, any other body as a string; the promise is
      fulfilled when [validateStatus] accepts the status code and rejected
      otherwise; redirects are followed unless [maxRedirects] is 0;
    - Express 4 [res.send]: a string is written as it is, a boolean, array
      or object through [JSON.stringify]; a lone number is taken as the
      status code. *)

From Stdlib Require Import String Ascii List ZArith Bool Lia DecimalString.
Import ListNotations.
Open Scope string_scope.
Set Warnings "-register-all".

(* ================================================================== *)
(** ** JavaScript strings *)
(* ================================================================== *)

Module Js.

Definition is_upper (c : ascii) : bool :=
  (65 <=? nat_of_ascii c)%nat && (nat_of_ascii c <=? 90)%nat.

Definition lower_ascii (c : ascii) : ascii :=
  if is_upper c then ascii_of_nat (nat_of_ascii c + 32) else c.

(** [s.toLowerCase()] *)
Fixpoint toLowerCase (s : string) : string :=
  match s with
  | EmptyString => EmptyString
  | String c r => String (lower_ascii c) (toLowerCase r)
  end.

(** [s.startsWith(p)] *)
Definition startsWith (s p : string) : bool := prefix p s.

(** [s.slice(n)] for [0 <= n] *)
Fixpoint slice (n : nat) (s : string) : string :=
  match n, s with
  | O, _ => s
  | S _, EmptyString => EmptyString
  | S m, String _ r => slice m r
  end.

(** [s.replace(pat, rep)] with a string pattern: only the first
    occurrence of [pat] is replaced. *)
Fixpoint replace (pat rep s : string) : string :=
  if prefix pat s then rep ++ slice (String.length pat) s
  else match s with
       | EmptyString => EmptyString
       | String c r => String c (replace pat rep r)
       end.

(** [list.includes(x)] on an array of strings *)
Definition includes (l : list string) (x : string) : bool :=
  existsb (String.eqb x) l.

(** JavaScript truthiness of a string: every string but [''] *)
Definition truthy (s : string) : bool := negb (s =? "").

(** An object with string keys, as the list of its entries in
    enumeration order.  Among the keys met here none is an array index,
    so enumeration order is insertion order. *)
Definition obj (V : Type) : Type := list (string * V).

(** [o[k]], [undefined] being [None] *)
Fixpoint get {V} (k : string) (o : obj V) : option V :=
  match o with
  | [] => None
  | (k', v) :: r => if k' =? k then Some v else get k r
  end.

(** [o[k] = v]: an existing key keeps its place, a new key goes last *)
Fixpoint set {V} (k : string) (v : V) (o : obj V) : obj V :=
  match o with
  | [] => [(k, v)]
  | (k', v') :: r => if k' =? k then (k', v) :: r else (k', v') :: set k v r
  end.

(** [{ ...a, ...b }] *)
Definition spread {V} (a b : obj V) : obj V :=
  fold_left (fun o kv => set (fst kv) (snd kv) o) b a.

(** [Object.fromEntries(l)] *)
Definition fromEntries {V} (l : list (string * V)) : obj V := spread [] l.

(** [Object.entries(o)] *)
Definition entries {V} (o : obj V) : list (string * V) := o.

Definition keys {V} (o : obj V) : list string := map fst o.

End Js.

(* ================================================================== *)
(** ** JSON values and [JSON.stringify] *)
(* ================================================================== *)

(** The values carried by [req.body], [req.query], [response.data] and the
    arguments of [res.json] and [res.send].  [JNum z] is the number whose
    value is the integer [z], of magnitude at most [2^53 - 1]; other
    numbers are outside the model. *)
Inductive JSValue : Type :=
| JNull
| JBool (b : bool)
| JNum (z : Z)
| JStr (s : string)
| JArr (elems : list JSValue)
| JObj (members : list (string * JSValue)).

(** Induction on a value that reaches the elements of arrays and the
    members of objects. *)
Section JSValue_induction.

Variable P : JSValue -> Prop.
Hypothesis P_null : P JNull.
Hypothesis P_bool : forall b, P (JBool b).
Hypothesis P_num : forall z, P (JNum z).
Hypothesis P_str : forall s, P (JStr s).
Hypothesis P_arr : forall elems, Forall P elems -> P (JArr elems).
Hypothesis P_obj :
  forall members, Forall (fun kv => P (snd kv)) members -> P (JObj members).

Fixpoint JSValue_nested_ind (v : JSValue) : P v :=
  match v with
  | JNull => P_null
  | JBool b => P_bool b
  | JNum z => P_num z
  | JStr s => P_str s
  | JArr elems =>
      P_arr elems
        ((fix all (l : list JSValue) : Forall P l :=
            match l with
            | [] => Forall_nil P
            | x :: r => Forall_cons x (JSValue_nested_ind x) (all r)
            end) elems)
  | JObj members =>
      P_obj members
        ((fix all (l : list (string * JSValue))
            : Forall (fun kv => P (snd kv)) l :=
            match l with
            | [] => Forall_nil _
            | kv :: r => Forall_cons kv (JSValue_nested_ind (snd kv)) (all r)
            end) members)
  end.

End JSValue_induction.

Module JSON.

Definition dq : ascii := ascii_of_nat 34.
Definition backslash : ascii := ascii_of_nat 92.

Definition hex_digit (n : nat) : ascii :=
  if (n <? 10)%nat then ascii_of_nat (48 + n) else ascii_of_nat (87 + n).

(** How [JSON.stringify] writes one character of a string. *)
Definition escape_char (c : ascii) : string :=
  let n := nat_of_ascii c in
  if (n =? 34)%nat then String backslash (String dq "")
  else if (n =? 92)%nat then String backslash (String backslash "")
  else if (n =? 8)%nat then String backslash "b"
  else if (n =? 9)%nat then String backslash "t"
  else if (n =? 10)%nat then String backslash "n"
  else if (n =? 12)%nat then String backslash "f"
  else if (n =? 13)%nat then String backslash "r"
  else if (n <? 32)%nat then
    String backslash
      ("u00" ++ String (hex_digit (n / 16)) (String (hex_digit (n mod 16)) ""))
  else String c "".

Fixpoint escape (s : string) : string :=
  match s with
  | EmptyString => EmptyString
  | String c r => escape_char c ++ escape r
  end.

Definition quote (s : string) : string :=
  String dq (escape s ++ String dq "").

(** The decimal numeral of an integer.  JavaScript prints the integers
    of magnitude at most 2^53 - 1 this way (from 10^21 on it prints an
    exponent, and above 2^53 not every integer is a number of its). *)
Definition decimal (z : Z) : string := NilZero.string_of_int (Z.to_int z).

(** [JSON.stringify(v)], no replacer and no indentation *)
Fixpoint stringify (v : JSValue) : string :=
  match v with
  | JNull => "null"
  | JBool true => "true"
  | JBool false => "false"
  | JNum z => decimal z
  | JStr s => quote s
  | JArr elems => "[" ++ String.concat "," (map stringify elems) ++ "]"
  | JObj members =>
      "{" ++ String.concat ","
               (map (fun kv => let '(k, x) := kv in
                               quote k ++ ":" ++ stringify x) members)
          ++ "}"
  end.

(** One member of an object, as [stringify] writes it. *)
Definition member_text (kv : string * JSValue) : string :=
  let '(k, x) := kv in quote k ++ ":" ++ stringify x.

(** *** JSON texts

    [text t v]: the JSON text [t] denotes the value [v], that is,
    [JSON.parse(t)] returns [v].  The relation covers a part of the
    grammar of RFC 8259 only (no escapes in strings, integer numerals,
    object keys that begin with a letter and are not repeated): it is
    used to name the value of a given text, never to say that a text is
    not JSON. *)

Definition is_ws (c : ascii) : bool :=
  let n := nat_of_ascii c in
  (n =? 32)%nat || (n =? 9)%nat || (n =? 10)%nat || (n =? 13)%nat.

Fixpoint blank (w : string) : bool :=
  match w with
  | EmptyString => true
  | String c r => is_ws c && blank r
  end.

Definition plain_char (c : ascii) : bool :=
  let n := nat_of_ascii c in
  (32 <=? n)%nat && (n <? 127)%nat && negb (n =? 34)%nat && negb (n =? 92)%nat.

Fixpoint plain (s : string) : bool :=
  match s with
  | EmptyString => true
  | String c r => plain_char c && plain r
  end.

Definition is_letter (c : ascii) : bool :=
  let n := nat_of_ascii c in
  ((65 <=? n)%nat && (n <=? 90)%nat) || ((97 <=? n)%nat && (n <=? 122)%nat).

Definition name_key (k : string) : bool :=
  match k with
  | EmptyString => false
  | String c r => is_letter c && plain r
  end.

Definition max_safe_integer : Z := 9007199254740991.

(** The values all of whose numbers are within the range of the model.
    On these [stringify] is [JSON.stringify]. *)
Fixpoint safe (v : JSValue) : bool :=
  match v with
  | JNum z => (Z.abs z <=? max_safe_integer)%Z
  | JArr elems => forallb safe elems
  | JObj members => forallb (fun kv => safe (snd kv)) members
  | _ => true
  end.

(** The values the relation [text] below speaks of. *)
Fixpoint in_fragment (v : JSValue) : Prop :=
  match v with
  | JNull | JBool _ => True
  | JNum z => (Z.abs z <= max_safe_integer)%Z
  | JStr s => plain s = true
  | JArr elems => fold_right (fun x acc => in_fragment x /\ acc) True elems
  | JObj members =>
      NoDup (map fst members) /\
      fold_right (fun kv acc => let '(k, x) := kv in
                                name_key k = true /\ in_fragment x /\ acc)
                 True members
  end.

Inductive text : string -> JSValue -> Prop :=
| text_null : text "null" JNull
| text_true : text "true" (JBool true)
| text_false : text "false" (JBool false)
| text_num z :
    (Z.abs z <= max_safe_integer)%Z -> text (decimal z) (JNum z)
| text_str s :
    plain s = true -> text (String dq (s ++ String dq "")) (JStr s)
| text_arr_empty w :
    blank w = true -> text ("[" ++ w ++ "]") (JArr [])
| text_arr t vs :
    elements t vs -> text ("[" ++ t ++ "]") (JArr vs)
| text_obj_empty w :
    blank w = true -> text ("{" ++ w ++ "}") (JObj [])
| text_obj t ms :
    members t ms -> NoDup (map fst ms) -> text ("{" ++ t ++ "}") (JObj ms)
| text_pad w1 t w2 v :
    blank w1 = true -> blank w2 = true -> text t v ->
    text (w1 ++ t ++ w2) v
with elements : string -> list JSValue -> Prop :=
| elements_one t v : text t v -> elements t [v]
| elements_more t v ts vs :
    text t v -> elements ts vs -> elements (t ++ "," ++ ts) (v :: vs)
with members : string -> list (string * JSValue) -> Prop :=
| members_one w1 k w2 t v :
    blank w1 = true -> name_key k = true -> blank w2 = true -> text t v ->
    members (w1 ++ String dq (k ++ String dq "") ++ w2 ++ ":" ++ t) [(k, v)]
| members_more w1 k w2 t v ts ms :
    blank w1 = true -> name_key k = true -> blank w2 = true -> text t v ->
    members ts ms ->
    members (w1 ++ String dq (k ++ String dq "") ++ w2 ++ ":" ++ t ++ "," ++ ts)
            ((k, v) :: ms).

End JSON.

(* ================================================================== *)
(** ** Requests, responses and the two outbound calls *)
(* ================================================================== *)

(** The module-level configuration read from [process.env].  The start-up
    check leaves [SUPABASE_URL] and [INTERNAL_API_URL] non-empty;
    [INTERNAL_API_KEY] defaults to ['']. *)
Record Config : Type := {
  SUPABASE_URL : string;
  INTERNAL_API_URL : string;
  INTERNAL_API_KEY : string
}.

(** The Express request.  [req_headers] is Node's [req.headers], whose
    field names Node has lower-cased. *)
Record Request : Type := {
  req_method : string;
  req_url : string;
  req_headers : Js.obj string;
  req_body : JSValue
}.

(** The [user] of [supabase.auth.getUser] *)
Record User : Type := {
  user_id : string;
  user_email : string
}.

Record JsError : Type := {
  err_code : option string;
  err_message : string
}.

(** [await supabase.auth.getUser(token)]: the promise resolves to
    [{ data: { user }, error }] or rejects.  A resolution the destructuring
    pattern cannot take apart throws inside the same [try] and is a
    [GetUserThrew] too. *)
Inductive GetUserOutcome : Type :=
| GetUserResolved (user : option User) (error : option JsError)
| GetUserThrew (e : JsError).

(** The argument of [axios({...})] *)
Record AxiosConfig : Type := {
  ax_method : string;
  ax_url : string;
  ax_data : JSValue;
  ax_params : JSValue;
  ax_headers : Js.obj string;
  ax_validateStatus : Z -> bool;
  ax_maxRedirects : Z
}.

Record AxiosResponse : Type := {
  resp_status : Z;
  resp_headers : Js.obj string;
  resp_data : JSValue
}.

(** [await axios(config)]: the promise resolves to a response or rejects
    with an error.  Which of the two it is for a response of the internal
    API depends on [validateStatus] and [maxRedirects]: see [axios]
    below. *)
Inductive AxiosOutcome : Type :=
| AxiosFulfilled (response : AxiosResponse)
| AxiosRejected (error : JsError).

(** The payload of a response: [res.json(v)] or [res.send(v)] *)
Inductive Body : Type :=
| Json (v : JSValue)
| Send (v : JSValue).

Record Response : Type := {
  res_status : Z;
  res_headers : Js.obj string;
  res_body : Body
}.

(** The bytes Express writes for a payload.  [res.json(v)] writes
    [JSON.stringify(v)].  [res.send(v)] writes a string as it is, nothing
    for [null], and hands a boolean, an array or an object to [res.json].
    A lone number is read by Express 4 as [res.send(status)]: the number
    replaces the status code and is not the body ([None]; see
    [sent_as_status]).  The bytes of a value with a number outside the
    range of the model are not given ([None]). *)
Definition written (v : JSValue) : option string :=
  if JSON.safe v then Some (JSON.stringify v) else None.

Definition entity (b : Body) : option string :=
  match b with
  | Json v => written v
  | Send (JStr s) => Some s
  | Send JNull => Some ""
  | Send (JNum _) => None
  | Send v => written v
  end.

(** The values [res.send] reads as a status code.  For them
    [res_status], the status given to [res.status], is not the status
    Express answers with. *)
Definition sent_as_status (v : JSValue) : bool :=
  match v with
  | JNum _ => true
  | _ => false
  end.

(** The values [res.send] hands to [res.json]. *)
Definition sent_as_json (v : JSValue) : bool :=
  match v with
  | JBool _ | JArr _ | JObj _ => true
  | _ => false
  end.

(** [res.setHeader(name, value)]: Node keeps one value per field name,
    field names compared without case. *)
Definition setHeader (name value : string) (hs : Js.obj string) : Js.obj string :=
  Js.set (Js.toLowerCase name) value hs.

(** [res.getHeader(name)] *)
Definition getHeader (name : string) (r : Response) : option string :=
  Js.get (Js.toLowerCase name) (res_headers r).

(** The value the [headers] object [o] gives the request for the field
    [name]: field names are compared without case, and axios and Node
    write the entries of [o] in enumeration order, a later entry
    overwriting an earlier one of the same field.  A value given by [o] is
    the value the request carries.  For a field [o] does not give ([None])
    the request carries none, unless the field is one axios and Node
    supply themselves when [o] has none, as they do for Host and
    Content-Length: those the request carries with the value they
    compute. *)
Definition pick (name : string) (acc : option string) (kv : string * string)
  : option string :=
  if Js.toLowerCase (fst kv) =? Js.toLowerCase name then Some (snd kv) else acc.

Definition header_on_wire (name : string) (o : Js.obj string) : option string :=
  fold_left (pick name) o None.

(** A header mapping: each field at most once, field names compared
    without case.  Node's [req.headers] is one, its names being lower-cased
    and distinct. *)
Definition header_mapping (hs : Js.obj string) : Prop :=
  NoDup (map Js.toLowerCase (Js.keys hs)).

(** The URL axios requests: [buildURL(url, params)] appends the serialised
    [params] after [?], or after [&] when [url] has a [?] already. *)
Fixpoint has_question_mark (s : string) : bool :=
  match s with
  | EmptyString => false
  | String c r => (nat_of_ascii c =? 63)%nat || has_question_mark r
  end.

Definition buildURL (url serializedParams : string) : string :=
  if serializedParams =? "" then url
  else url ++ (if has_question_mark url then "&" else "?") ++ serializedParams.

(* ================================================================== *)
(** ** Interaction with the outside *)
(* ================================================================== *)

(** A handler run: it ends with a value, or asks the clock, the identity
    provider or the internal API and goes on with the answer. *)
Inductive Prog (A : Type) : Type :=
| Ret (a : A)
| DateNow (k : string -> Prog A)
| GetUser (token : string) (k : GetUserOutcome -> Prog A)
| Axios (config : AxiosConfig) (k : AxiosOutcome -> Prog A).

Arguments Ret {A} a.
Arguments DateNow {A} k.
Arguments GetUser {A} token k.
Arguments Axios {A} config k.

Inductive Call : Type :=
| CallClock
| CallIdentityProvider (token : string)
| CallInternalApi (config : AxiosConfig).

Record World : Type := {
  clock : string;
  identity_provider : string -> GetUserOutcome;
  internal_api : AxiosConfig -> AxiosOutcome
}.

(** The value a run ends with in a world, and the calls it made, in order. *)
Fixpoint run {A} (w : World) (p : Prog A) : A * list Call :=
  match p with
  | Ret a => (a, [])
  | DateNow k =>
      let '(a, t) := run w (k (clock w)) in (a, CallClock :: t)
  | GetUser token k =>
      let '(a, t) := run w (k (identity_provider w token)) in
      (a, CallIdentityProvider token :: t)
  | Axios config k =>
      let '(a, t) := run w (k (internal_api w config)) in
      (a, CallInternalApi config :: t)
  end.

(* ================================================================== *)
(** ** The promise of [axios(config)] *)
(* ================================================================== *)

(** What becomes of one HTTP request to the internal API: a response
    arrives (its body is held as axios decodes it), or the request fails
    on the way. *)
Inductive ServiceOutcome : Type :=
| Answered (response : AxiosResponse)
| NoAnswer (error : JsError).

Section Axios.

(** The request that follows a redirect response. *)
Variable redirected : AxiosConfig -> AxiosResponse -> AxiosConfig.

(** The internal API, one request at a time. *)
Variable service : AxiosConfig -> ServiceOutcome.

(** axios's [settle]: the promise is fulfilled with the response when
    [validateStatus] accepts its status code, and rejected otherwise. *)
Definition settle (config : AxiosConfig) (response : AxiosResponse)
  : AxiosOutcome :=
  let status := resp_status response in
  if (status =? 0)%Z || ax_validateStatus config status
  then AxiosFulfilled response
  else AxiosRejected
         {| err_code :=
              if ((400 <=? status) && (status <? 500))%Z
              then Some "ERR_BAD_REQUEST"
              else if ((500 <=? status) && (status <? 600))%Z
              then Some "ERR_BAD_RESPONSE"
              else None;
            err_message :=
              "Request failed with status code " ++ JSON.decimal status |}.

(** The responses a client that follows redirects does not hand over: a
    status code from 300 to 399 with a Location. *)
Definition is_redirect (response : AxiosResponse) : bool :=
  ((300 <=? resp_status response) && (resp_status response <? 400))%Z
  && match Js.get "location" (resp_headers response) with
     | Some location => Js.truthy location
     | None => false
     end.

Definition too_many_redirects : JsError :=
  {| err_code := Some "ERR_FR_TOO_MANY_REDIRECTS";
     err_message := "Maximum number of redirects exceeded" |}.

(** Following at most [left] redirects from [request] on. *)
Fixpoint follow (config : AxiosConfig) (left : nat) (request : AxiosConfig)
  : AxiosOutcome :=
  match service request with
  | NoAnswer error => AxiosRejected error
  | Answered response =>
      if is_redirect response then
        match left with
        | O => AxiosRejected too_many_redirects
        | S n => follow config n (redirected request response)
        end
      else settle config response
  end.

(** [await axios(config)]: with [maxRedirects: 0] the response to the one
    request is settled, whatever its status code. *)
Definition axios (config : AxiosConfig) : AxiosOutcome :=
  if (ax_maxRedirects config =? 0)%Z then
    match service config with
    | NoAnswer error => AxiosRejected error
    | Answered response => settle config response
    end
  else follow config (Z.to_nat (ax_maxRedirects config)) config.

(** The world whose internal API is reached through axios. *)
Definition served (w : World) : Prop :=
  forall config, internal_api w config = axios config.

End Axios.

(* ================================================================== *)
(** ** The routes of [index.js] *)
(* ================================================================== *)

(** [req.path]: the request target up to its first [?] (the target is in
    origin form: it begins with [/] and has no fragment). *)
Fixpoint pathname (url : string) : string :=
  match url with
  | EmptyString => EmptyString
  | String c r => if (nat_of_ascii c =? 63)%nat then EmptyString
                  else String c (pathname r)
  end.

(** The query string of the request target: what follows its first [?]. *)
Fixpoint search (url : string) : string :=
  match url with
  | EmptyString => EmptyString
  | String c r => if (nat_of_ascii c =? 63)%nat then r else search r
  end.

(** The methods a route registered with [app.get] serves: GET, and HEAD
    when the route has no HEAD handler of its own. *)
Definition route_get (method : string) : bool :=
  (method =? "GET") || (method =? "HEAD").

(** The route path ['/health'].  The application leaves the settings
    [case sensitive routing] and [strict routing] off, so Express compiles
    the path to [/^\/health\/?$/i]: any letter case, one optional trailing
    slash. *)
Definition match_health (path : string) : bool :=
  let p := Js.toLowerCase path in (p =? "/health") || (p =? "/health/").

(** The route path ['/api/*']: the path begins with [/api/], in any
    letter case, and goes on with anything. *)
Definition match_api (path : string) : bool :=
  Js.startsWith (Js.toLowerCase path) "/api/".

(** [url.replace(/^\/api\/?/, '')] *)
Definition strip_api (url : string) : string :=
  if prefix "/api/" url then Js.slice 5 url
  else if prefix "/api" url then Js.slice 4 url
  else url.

Definition blocklist : list string := ["authorization"; "host"; "content-length"].

Definition json_error (status : Z) (error message : string) : Response :=
  {| res_status := status;
     res_headers := [];
     res_body := Json (JObj [("error", JStr error); ("message", JStr message)]) |}.

(** *** What can throw while the response is relayed

    The [try] of the proxy handler spans the calls that relay the
    response: [res.setHeader] throws on a field Node does not accept, and
    [res.send] throws when the status code cannot be written. *)

(** The characters of a field name, Node's [checkIsHttpToken]:
    [^_`a-zA-Z-0-9!#$%&'*+.|~] *)
Definition token_char (c : ascii) : bool :=
  let n := nat_of_ascii c in
  ((n =? 33) || ((35 <=? n) && (n <=? 39)) || (n =? 42) || (n =? 43)
   || (n =? 45) || (n =? 46) || ((48 <=? n) && (n <=? 57))
   || ((65 <=? n) && (n <=? 90)) || ((94 <=? n) && (n <=? 122))
   || (n =? 124) || (n =? 126))%nat.

Fixpoint token_chars (s : string) : bool :=
  match s with
  | EmptyString => true
  | String c r => token_char c && token_chars r
  end.

Definition is_token (s : string) : bool := Js.truthy s && token_chars s.

(** The field values Node accepts ([checkInvalidHeaderChar] finds no
    character outside tab, U+0020 to U+007E and U+0080 to U+00FF); the
    characters from U+0080 on are two bytes of the string, the first of
    them 194 or 195. *)
Fixpoint field_content (s : string) : bool :=
  match s with
  | EmptyString => true
  | String c r =>
      let n := nat_of_ascii c in
      if ((n =? 9) || ((32 <=? n) && (n <=? 126)))%nat then field_content r
      else if ((n =? 194) || (n =? 195))%nat then
        match r with
        | EmptyString => false
        | String d r' =>
            ((128 <=? nat_of_ascii d) && (nat_of_ascii d <=? 191))%nat
            && field_content r'
        end
      else false
  end.

(** The error [res.setHeader(name, value)] throws, if it throws. *)
Definition setHeader_throws (name value : string) : option JsError :=
  let field := "[" ++ String JSON.dq (name ++ String JSON.dq "]") in
  if negb (is_token name)
  then Some {| err_code := Some "ERR_INVALID_HTTP_TOKEN";
               err_message := "Header name must be a valid HTTP token " ++ field |}
  else if negb (field_content value)
  then Some {| err_code := Some "ERR_INVALID_CHAR";
               err_message := "Invalid character in header content " ++ field |}
  else None.

(** [Object.entries(response.headers).forEach(...)] from the headers [hs]
    on: the headers set, and the error that ended the loop, if one did. *)
Fixpoint set_headers (entries : list (string * string)) (hs : Js.obj string)
  : Js.obj string * option JsError :=
  match entries with
  | [] => (hs, None)
  | (key, value) :: rest =>
      match setHeader_throws key value with
      | Some error => (hs, Some error)
      | None => set_headers rest (setHeader key value hs)
      end
  end.

(** The header objects all of whose fields [res.setHeader] accepts.  The
    headers of a response that Node has parsed are such. *)
Definition accepted (hs : Js.obj string) : bool :=
  forallb (fun kv => is_token (fst kv) && field_content (snd kv)) hs.

(** [statusCode |= 0] on an integer *)
Definition to_int32 (z : Z) : Z :=
  ((z + 2147483648) mod 4294967296 - 2147483648)%Z.

(** The status codes Node writes: [writeHead] throws on the others. *)
Definition writable_status (statusCode : Z) : bool :=
  ((100 <=? to_int32 statusCode) && (to_int32 statusCode <=? 999))%Z.

Definition invalid_status_code (statusCode : Z) : JsError :=
  {| err_code := Some "ERR_HTTP_INVALID_STATUS_CODE";
     err_message := "Invalid status code: " ++ JSON.decimal statusCode |}.

(** [res.statusCode] when [res.status(response.status).send(response.data)]
    comes to write the head: Express 4 takes a lone number given to
    [res.send] for the status code. *)
Definition statusCode_sent (response : AxiosResponse) : Z :=
  match resp_data response with
  | JNum n => n
  | _ => resp_status response
  end.

(** The relay of a response throws: the headers set before the throw, and
    the error. *)
Definition relay_throws (response : AxiosResponse)
  : option (Js.obj string * JsError) :=
  match set_headers (Js.entries (resp_headers response)) [] with
  | (hs, Some error) => Some (hs, error)
  | (hs, None) =>
      if writable_status (statusCode_sent response) then None
      else Some (hs, invalid_status_code (statusCode_sent response))
  end.

Section Routes.

Variable cfg : Config.

(** The query parser of Express, [qs.parse], from the query string to
    [req.query]. *)
Variable qs_parse : string -> JSValue.

Definition req_path (req : Request) : string := pathname (req_url req).

Definition req_query (req : Request) : JSValue := qs_parse (search (req_url req)).

(** [app.get('/health', ...)] *)
Definition health (req : Request) : Prog Response :=
  DateNow (fun now =>
    Ret {| res_status := 200;
           res_headers := [];
           res_body := Json (JObj [("status", JStr "ok");
                                   ("timestamp", JStr now);
                                   ("supabase", JStr (SUPABASE_URL cfg));
                                   ("internalApi", JStr (INTERNAL_API_URL cfg))]) |}).

Definition missing_header : Response :=
  json_error 401 "Unauthorized"
    "Missing or invalid Authorization header. Expected: Bearer <token>".

Definition invalid_token : Response :=
  json_error 401 "Unauthorized" "Invalid or expired token".

Definition user_not_found : Response :=
  json_error 401 "Unauthorized" "User not found".

Definition auth_failed : Response :=
  json_error 500 "Authentication failed" "Internal authentication error".

(** [async function verifyAuth(req, res, next)]; [next] goes on with
    [req.user] set. *)
Definition verifyAuth (req : Request) (next : User -> Prog Response)
  : Prog Response :=
  match Js.get "authorization" (req_headers req) with
  | None => Ret missing_header
  | Some authHeader =>
      if negb (Js.truthy authHeader) || negb (Js.startsWith authHeader "Bearer ")
      then Ret missing_header
      else
        let token := Js.replace "Bearer " "" authHeader in
        GetUser token (fun outcome =>
          match outcome with
          | GetUserResolved user error =>
              match error with
              | Some _ => Ret invalid_token
              | None =>
                  match user with
                  | None => Ret user_not_found
                  | Some u => next u
                  end
              end
          | GetUserThrew _ => Ret auth_failed
          end)
  end.

(** The [headers] object literal of the axios call: first the entries
    the proxy writes itself, *)
Definition injected_headers (user : User) : Js.obj string :=
  let h0 := [("Content-Type", "application/json")] in
  let h1 := Js.spread h0
              (if Js.truthy (INTERNAL_API_KEY cfg)
               then [("X-Internal-Key", INTERNAL_API_KEY cfg)] else []) in
  let h2 := Js.set "X-User-Id" (user_id user) h1 in
  Js.set "X-User-Email" (user_email user) h2.

(** then the spread of the incoming headers that pass the filter. *)
Definition forwarded (key : string) : bool :=
  negb (Js.includes blocklist (Js.toLowerCase key)).

Definition proxy_headers (req : Request) (user : User) : Js.obj string :=
  Js.spread (injected_headers user)
    (Js.fromEntries
       (filter (fun kv => forwarded (fst kv)) (Js.entries (req_headers req)))).

Definition internalUrl (req : Request) : string :=
  let apiPath := strip_api (req_url req) in
  INTERNAL_API_URL cfg ++ "/" ++ apiPath.

Definition proxy_config (req : Request) (user : User) : AxiosConfig :=
  {| ax_method := req_method req;
     ax_url := internalUrl req;
     ax_data := req_body req;
     ax_params := req_query req;
     ax_headers := proxy_headers req user;
     ax_validateStatus := fun _ => true;
     ax_maxRedirects := 0 |}.

(** The [try] branch after the call, when nothing in it throws: headers,
    status and body. *)
Definition relay (response : AxiosResponse) : Response :=
  {| res_status := resp_status response;
     res_headers :=
       fold_left (fun hs kv => setHeader (fst kv) (snd kv) hs)
                 (Js.entries (resp_headers response)) [];
     res_body := Send (resp_data response) |}.

(** The [catch] branch *)
Definition proxy_error (error : JsError) : Response :=
  match err_code error with
  | Some code =>
      if code =? "ECONNREFUSED"
      then json_error 503 "Service Unavailable" "Internal API is not reachable"
      else if code =? "ETIMEDOUT"
      then json_error 504 "Gateway Timeout" "Internal API request timed out"
      else json_error 500 "Internal Server Error"
                      "An error occurred while proxying the request"
  | None => json_error 500 "Internal Server Error"
                       "An error occurred while proxying the request"
  end.

(** The [catch] branch after a relay that threw: the headers [hs] set
    before the throw stay on the response. *)
Definition relay_failed (hs : Js.obj string) (error : JsError) : Response :=
  {| res_status := res_status (proxy_error error);
     res_headers := hs;
     res_body := res_body (proxy_error error) |}.

(** What the handler answers to a response of the internal API. *)
Definition relayed (response : AxiosResponse) : Response :=
  match relay_throws response with
  | None => relay response
  | Some (hs, error) => relay_failed hs error
  end.

(** The handler of [app.all('/api/*', verifyAuth, ...)] *)
Definition proxy (req : Request) (user : User) : Prog Response :=
  Axios (proxy_config req user) (fun outcome =>
    match outcome with
    | AxiosFulfilled response => Ret (relayed response)
    | AxiosRejected error => Ret (proxy_error error)
    end).

Definition not_found : Response :=
  json_error 404 "Not Found"
    "Invalid endpoint. API routes should start with /api/".

Definition self_description : Response :=
  {| res_status := 200;
     res_headers := [];
     res_body := Json (JObj [("name", JStr "Supabase Auth Proxy");
                             ("version", JStr "1.0.0");
                             ("endpoints", JObj [("health", JStr "/health");
                                                 ("api", JStr "/api/*")])]) |}.

(** [app.all('*', ...)] *)
Definition catch_all (req : Request) : Prog Response :=
  if negb (req_path req =? "/") then Ret not_found else Ret self_description.

(** The router: the first route, in the order of registration, whose
    method and path match. *)
Definition app (req : Request) : Prog Response :=
  if route_get (req_method req) && match_health (req_path req) then health req
  else if match_api (req_path req) then verifyAuth req (proxy req)
  else catch_all req.

(** A request to the forwarding prefix whose bearer token [t] the
    identity provider of [w] resolves to the user [u]. *)
Definition authenticated (w : World) (req : Request) (t : string) (u : User)
  : Prop :=
  Js.startsWith (req_path req) "/api/" = true /\
  Js.get "authorization" (req_headers req) = Some ("Bearer " ++ t) /\
  identity_provider w t = GetUserResolved (Some u) None.

(** The URL of the request axios issues for a configuration, given the
    serialiser of its [params]. *)
Definition requested_url (serialize : JSValue -> string) (c : AxiosConfig)
  : string :=
  buildURL (ax_url c) (serialize (ax_params c)).

End Routes.

(* ================================================================== *)
(** ** Start-up *)
(* ================================================================== *)

(** [!v] for a variable of [process.env]: unset ([undefined]) or [''] *)
Definition unset (v : option string) : bool :=
  match v with
  | None => true
  | Some s => negb (Js.truthy s)
  end.

(** The string a checked variable holds. *)
Definition value (v : option string) : string :=
  match v with
  | None => ""
  | Some s => s
  end.

(** [process.env.PORT || 3000]: the string of the environment, or the
    number 3000. *)
Inductive PortValue : Type :=
| PortString (s : string)
| PortNumber (n : Z).

(** [`${PORT}`] *)
Definition port_text (p : PortValue) : string :=
  match p with
  | PortString s => s
  | PortNumber n => JSON.decimal n
  end.

(** The module-level constants once the check has passed. *)
Record Settings : Type := {
  config : Config;
  SUPABASE_SERVICE_ROLE_KEY : string;
  PORT : PortValue
}.

(** The module body up to the routes: [process.exit(1)] after the lines
    written to the error output, or the constants and the lines written to
    the log. *)
Inductive Startup : Type :=
| Exit (code : Z) (stderr : list string)
| Running (settings : Settings) (stdout : list string).

Definition startup (env : Js.obj string) : Startup :=
  let port :=
    match Js.get "PORT" env with
    | Some s => if Js.truthy s then PortString s else PortNumber 3000
    | None => PortNumber 3000
    end in
  let supabase_url := Js.get "SUPABASE_URL" env in
  let service_role_key := Js.get "SUPABASE_SERVICE_ROLE_KEY" env in
  let internal_api_url := Js.get "INTERNAL_API_URL" env in
  let internal_api_key :=
    match Js.get "INTERNAL_API_KEY" env with
    | Some s => if Js.truthy s then s else ""
    | None => ""
    end in
  if unset supabase_url || unset service_role_key || unset internal_api_url
  then
    Exit 1
      ("❌ Missing required environment variables:"
         :: ((if unset supabase_url then ["   - SUPABASE_URL"] else [])
             ++ (if unset service_role_key
                 then ["   - SUPABASE_SERVICE_ROLE_KEY"] else [])
             ++ (if unset internal_api_url
                 then ["   - INTERNAL_API_URL"] else []))%list)
  else
    Running
      {| config := {| SUPABASE_URL := value supabase_url;
                      INTERNAL_API_URL := value internal_api_url;
                      INTERNAL_API_KEY := internal_api_key |};
         SUPABASE_SERVICE_ROLE_KEY := value service_role_key;
         PORT := port |}
      ["🔧 Configuration:";
       "   Supabase URL: " ++ value supabase_url;
       "   Internal API: " ++ value internal_api_url;
       "   Internal API Key: "
         ++ (if Js.truthy internal_api_key then "✓ Set" else "✗ Not set")].

(** The callback of [app.listen(PORT, ...)] *)
Definition listening (port : PortValue) : list string :=
  [""; "🚀 Supabase Auth Proxy started successfully!";
   "   Port: " ++ port_text port;
   "   Health Check: http://localhost:" ++ port_text port ++ "/health";
   "   API Endpoint: http://localhost:" ++ port_text port ++ "/api/*";
   ""].

(* ================================================================== *)
(** ** The log of the handlers *)
(* ================================================================== *)

Fixpoint Prog_map {A B} (f : A -> B) (p : Prog A) : Prog B :=
  match p with
  | Ret a => Ret (f a)
  | DateNow k => DateNow (fun now => Prog_map f (k now))
  | GetUser token k => GetUser token (fun outcome => Prog_map f (k outcome))
  | Axios config k => Axios config (fun outcome => Prog_map f (k outcome))
  end.

Definition is_identity_provider_call (c : Call) : bool :=
  match c with
  | CallIdentityProvider _ => true
  | _ => false
  end.

Definition is_internal_api_call (c : Call) : bool :=
  match c with
  | CallInternalApi _ => true
  | _ => false
  end.

Section LoggedRoutes.

Variable cfg : Config.
Variable qs_parse : string -> JSValue.

(** [verifyAuth] with the lines it gives to [console.log] and
    [console.error]; [next] goes on with [req.user] and the lines so far. *)
Definition verifyAuth_logged (req : Request)
           (next : User -> list string -> Prog (Response * list string))
  : Prog (Response * list string) :=
  match Js.get "authorization" (req_headers req) with
  | None => Ret (missing_header, ["❌ Missing or invalid Authorization header"])
  | Some authHeader =>
      if negb (Js.truthy authHeader) || negb (Js.startsWith authHeader "Bearer ")
      then Ret (missing_header, ["❌ Missing or invalid Authorization header"])
      else
        let token := Js.replace "Bearer " "" authHeader in
        GetUser token (fun outcome =>
          match outcome with
          | GetUserResolved user error =>
              match error with
              | Some e =>
                  Ret (invalid_token,
                       ["❌ Token validation failed: " ++ err_message e])
              | None =>
                  match user with
                  | None => Ret (user_not_found, ["❌ No user found for token"])
                  | Some u =>
                      next u ["✅ Authenticated user: " ++ user_email u
                                ++ " (" ++ user_id u ++ ")"]
                  end
              end
          | GetUserThrew e =>
              Ret (auth_failed, ["❌ Auth error: " ++ err_message e])
          end)
  end.

(** The proxy handler with its lines. *)
Definition proxy_logged (req : Request) (user : User) (log : list string)
  : Prog (Response * list string) :=
  let proxying :=
    "🔄 Proxying " ++ req_method req ++ " request to: " ++ internalUrl cfg req in
  let who := "   User: " ++ user_email user in
  let log := (log ++ [proxying; who])%list in
  Axios (proxy_config cfg qs_parse req user) (fun outcome =>
    match outcome with
    | AxiosFulfilled response =>
        let line := "✅ Response: " ++ JSON.decimal (resp_status response) in
        match relay_throws response with
        | None => Ret (relay response, (log ++ [line])%list)
        | Some (hs, error) =>
            let caught := "❌ Proxy error: " ++ err_message error in
            Ret (relay_failed hs error, (log ++ [line; caught])%list)
        end
    | AxiosRejected error =>
        let line := "❌ Proxy error: " ++ err_message error in
        Ret (proxy_error error, (log ++ [line])%list)
    end).

(** The router; the health route and the catch-all write no line. *)
Definition app_logged (req : Request) : Prog (Response * list string) :=
  if route_get (req_method req) && match_health (req_path req)
  then Prog_map (fun r => (r, [])) (health cfg req)
  else if match_api (req_path req)
  then verifyAuth_logged req (proxy_logged req)
  else Prog_map (fun r => (r, [])) (catch_all req).

End LoggedRoutes.

(* ================================================================== *)
(** ** The [verifyAuth] of the setup guide, with roles *)
(* ================================================================== *)

(** [s.includes(pat)]: [pat] occurs in [s] *)
Fixpoint occurs (pat s : string) : bool :=
  prefix pat s
  || match s with
     | EmptyString => false
     | String _ r => occurs pat r
     end.

Section Roles.

(** [user.user_metadata?.role], when the metadata has a role and the role
    is a string. *)
Variable metadata_role : User -> option string.

(** [res.status(status).json({ error })] *)
Definition error_only (status : Z) (error : string) : Response :=
  {| res_status := status;
     res_headers := [];
     res_body := Json (JObj [("error", JStr error)]) |}.

(** The function the guide proposes in place of [verifyAuth].  It has no
    [try]: when [getUser] rejects, the rejection leaves the function, which
    Express 4 does not observe, and no response is sent ([None]).  [next]
    goes on with [req.user] and [req.userRole] set. *)
Definition verifyAuth_with_roles (req : Request)
           (next : User -> string -> Prog (option Response))
  : Prog (option Response) :=
  let token :=
    match Js.get "authorization" (req_headers req) with
    | Some authHeader => Some (Js.replace "Bearer " "" authHeader)
    | None => None
    end in
  match token with
  | None => Ret (Some (error_only 401 "No token provided"))
  | Some token =>
      if negb (Js.truthy token)
      then Ret (Some (error_only 401 "No token provided"))
      else
        GetUser token (fun outcome =>
          match outcome with
          | GetUserThrew _ => Ret None
          | GetUserResolved user error =>
              match error, user with
              | None, Some u =>
                  let userRole :=
                    match metadata_role u with
                    | Some role => if Js.truthy role then role else "user"
                    | None => "user"
                    end in
                  if Js.startsWith (req_path req) "/api/admin"
                     && negb (userRole =? "admin")
                  then Ret (Some (error_only 403 "Admin access required"))
                  else next u userRole
              | _, _ => Ret (Some (error_only 401 "Invalid token"))
              end
          end)
  end.

End Roles.

(** The request [req] presenting the bearer token [t]. *)
Definition with_token (t : string) (req : Request) : Request :=
  {| req_method := req_method req;
     req_url := req_url req;
     req_headers := Js.set "authorization" ("Bearer " ++ t) (req_headers req);
     req_body := req_body req |}.

(** The request [req] with the query string [q] added to its target. *)
Definition with_query (q : string) (req : Request) : Request :=
  {| req_method := req_method req;
     req_url := req_url req ++ "?" ++ q;
     req_headers := req_headers req;
     req_body := req_body req |}.

(* ================================================================== *)
(** ** Concrete inputs *)
(* ================================================================== *)

Module Sample.

Definition cfg : Config :=
  {| SUPABASE_URL := "http://supabase.internal:8000";
     INTERNAL_API_URL := "http://api.internal:8080";
     INTERNAL_API_KEY := "s3cret" |}.

Definition alice : User := {| user_id := "u1"; user_email := "a@b.com" |}.

(** Splits [key=value] at its first [=]. *)
Fixpoint before_eq (s : string) : string :=
  match s with
  | EmptyString => EmptyString
  | String c r => if (nat_of_ascii c =? 61)%nat then EmptyString
                  else String c (before_eq r)
  end.

Fixpoint after_eq (s : string) : string :=
  match s with
  | EmptyString => EmptyString
  | String c r => if (nat_of_ascii c =? 61)%nat then r else after_eq r
  end.

(** A query parser for query strings of at most one plain [key=value]
    pair, on which it agrees with [qs.parse]. *)
Definition qs_parse (s : string) : JSValue :=
  if s =? "" then JObj [] else JObj [(before_eq s, JStr (after_eq s))].

(** The matching serialiser of one plain pair. *)
Definition serialize (v : JSValue) : string :=
  match v with
  | JObj [(k, JStr x)] => k ++ "=" ++ x
  | _ => ""
  end.

Definition request (method url : string) (headers : Js.obj string) : Request :=
  {| req_method := method;
     req_url := url;
     req_headers := headers;
     req_body := JObj [] |}.

(** An identity provider that knows one token. *)
Definition provider (token : string) : GetUserOutcome :=
  if token =? "good-token" then GetUserResolved (Some alice) None
  else GetUserResolved None
         (Some {| err_code := None; err_message := "invalid JWT" |}).

(** An identity provider that finds no user, and one that cannot be
    reached. *)
Definition knows_nobody (token : string) : GetUserOutcome :=
  GetUserResolved None None.

Definition is_down (token : string) : GetUserOutcome :=
  GetUserThrew {| err_code := None; err_message := "fetch failed" |}.

Definition world_of (idp : string -> GetUserOutcome)
           (api : AxiosConfig -> AxiosOutcome) : World :=
  {| clock := "2024-01-01T00:00:00.000Z";
     identity_provider := idp;
     internal_api := api |}.

Definition world (api : AxiosConfig -> AxiosOutcome) : World :=
  world_of provider api.

Definition answers (status : Z) (headers : Js.obj string) (data : JSValue)
  : AxiosConfig -> AxiosOutcome :=
  fun _ => AxiosFulfilled {| resp_status := status;
                             resp_headers := headers;
                             resp_data := data |}.

Definition fails (code : option string) : AxiosConfig -> AxiosOutcome :=
  fun _ => AxiosRejected {| err_code := code; err_message := "request failed" |}.

Definition bearer : Js.obj string := [("authorization", "Bearer good-token")].

(** An authenticated caller who sends identity headers of their own. *)
Definition spoofing : Request :=
  request "GET" "/api/users"
    [("host", "proxy.internal:3000");
     ("authorization", "Bearer good-token");
     ("x-user-id", "admin");
     ("x-user-email", "root@b.com")].

Definition paged : Request := request "GET" "/api/users?page=2" bearer.

Definition users : Request := request "GET" "/api/users" bearer.

Definition expired : Request :=
  request "GET" "/api/users" [("authorization", "Bearer expired-token")].

Definition teapot : AxiosResponse :=
  {| resp_status := 418;
     resp_headers := [("content-type", "application/json"); ("x-trace", "7")];
     resp_data := JObj [("name", JStr "alice")] |}.

Definition unreachable : JsError :=
  {| err_code := Some "ECONNREFUSED"; err_message := "connect ECONNREFUSED" |}.

(** The axios call the proxy makes for [spoofing]. *)
Definition spoofed_config : AxiosConfig :=
  proxy_config cfg qs_parse spoofing alice.

(** The JSON text of [{ name: 'alice' }] with a space after the colon. *)
Definition alice_text : string :=
  "{" ++ String JSON.dq ("name" ++ String JSON.dq (": " ++
         String JSON.dq ("alice" ++ String JSON.dq "}"))).

Definition alice_data : JSValue := JObj [("name", JStr "alice")].

(** An environment with every variable set, and one that lacks two. *)
Definition env : Js.obj string :=
  [("SUPABASE_URL", "http://supabase.internal:8000");
   ("SUPABASE_SERVICE_ROLE_KEY", "service-role-key");
   ("INTERNAL_API_URL", "http://api.internal:8080");
   ("INTERNAL_API_KEY", "s3cret");
   ("PORT", "8081")].

Definition bare_env : Js.obj string :=
  [("SUPABASE_URL", "http://supabase.internal:8000");
   ("INTERNAL_API_URL", "")].

(** A caller with ordinary headers and a valid token. *)
Definition browser : Request :=
  request "POST" "/api/orders"
    [("host", "proxy.internal:3000");
     ("content-length", "2");
     ("authorization", "Bearer good-token");
     ("accept", "application/json");
     ("cookie", "theme=dark")].

(** The same deployment with other secrets. *)
Definition rotated_env : Js.obj string :=
  [("SUPABASE_URL", "http://supabase.internal:8000");
   ("SUPABASE_SERVICE_ROLE_KEY", "another-service-role-key");
   ("INTERNAL_API_URL", "http://api.internal:8080");
   ("INTERNAL_API_KEY", "0ther");
   ("PORT", "8081")].

(** An identity provider that knows two tokens of the same user. *)
Definition provider_of_two (token : string) : GetUserOutcome :=
  if (token =? "good-token") || (token =? "fresh-token")
  then GetUserResolved (Some alice) None
  else GetUserResolved None
         (Some {| err_code := None; err_message := "invalid JWT" |}).

(** A request whose target spells the prefix in capitals. *)
Definition shouting : Request := request "GET" "/API/users?page=2" bearer.

(** Users without a role in their metadata, and the handler after the
    role check. *)
Definition no_role (u : User) : option string := None.

Definition forward (req : Request) (u : User) (role : string)
  : Prog (option Response) :=
  Prog_map Some (proxy cfg qs_parse req u).

Definition admin_users : Request := request "GET" "/api/admin/users" bearer.

Definition admin_users_capital : Request :=
  request "GET" "/api/Admin/users" bearer.

Definition basic : Request :=
  request "GET" "/api/users" [("authorization", "Basic dXNlcjpwYXNz")].

(** An internal API that gives every request the same response, and the
    world that reaches it through axios. *)
Definition always (response : AxiosResponse) : AxiosConfig -> ServiceOutcome :=
  fun _ => Answered response.

(** A client that follows a redirect by asking for the Location. *)
Definition to_location (request : AxiosConfig) (response : AxiosResponse)
  : AxiosConfig :=
  {| ax_method := "GET";
     ax_url := match Js.get "location" (resp_headers response) with
               | Some location => location
               | None => ax_url request
               end;
     ax_data := JNull;
     ax_params := JObj [];
     ax_headers := ax_headers request;
     ax_validateStatus := ax_validateStatus request;
     ax_maxRedirects := ax_maxRedirects request |}.

Definition world_over (service : AxiosConfig -> ServiceOutcome) : World :=
  world (axios to_location service).

(** A redirect of the internal API. *)
Definition moved : AxiosResponse :=
  {| resp_status := 302;
     resp_headers := [("location", "http://api.internal:8080/login");
                      ("content-type", "text/plain")];
     resp_data := JStr "Found" |}.

(** A response whose body is the JSON text [42]. *)
Definition forty_two : AxiosResponse :=
  {| resp_status := 200;
     resp_headers := [("content-type", "application/json"); ("x-trace", "7")];
     resp_data := JNum 42 |}.

(** The response with the body [{"name": "alice"}], as axios decodes it. *)
Definition alice_response : AxiosResponse :=
  {| resp_status := 200;
     resp_headers := [("content-type", "application/json")];
     resp_data := alice_data |}.

End Sample.

(* ================================================================== *)
(** ** Strings and objects *)
(* ================================================================== *)

Lemma toLowerCase_app (a b : string) :
  Js.toLowerCase (a ++ b) = Js.toLowerCase a ++ Js.toLowerCase b.
Proof.
  induction a as [|c r IH]; simpl; [reflexivity|]. now rewrite IH.
Qed.

Lemma string_app_assoc (a b c : string) : (a ++ b) ++ c = a ++ b ++ c.
Proof.
  induction a as [|x r IH]; simpl; [reflexivity|]. now rewrite IH.
Qed.

Lemma prefix_app (p t : string) : prefix p (p ++ t) = true.
Proof.
  induction p as [|c r IH]; simpl.
  - now destruct t.
  - destruct (ascii_dec c c) as [_|n]; [exact IH | now elim n].
Qed.

Lemma slice_app (p t : string) : Js.slice (String.length p) (p ++ t) = t.
Proof.
  induction p as [|c r IH]; simpl; [reflexivity | exact IH].
Qed.

(** A string that starts with [p] is [p] followed by its remainder. *)
Lemma prefix_split (p s : string) :
  prefix p s = true -> s = p ++ Js.slice (String.length p) s.
Proof.
  revert s; induction p as [|c r IH]; intros s H; simpl.
  - reflexivity.
  - destruct s as [|d s']; simpl in H; [discriminate|].
    destruct (ascii_dec c d) as [->|]; [|discriminate].
    f_equal. now apply IH.
Qed.

(** [replace] on a string that starts with the pattern cuts the pattern
    off its front. *)
Lemma replace_at_start (pat rep s : string) :
  prefix pat s = true ->
  Js.replace pat rep s = rep ++ Js.slice (String.length pat) s.
Proof.
  intros H. destruct s; cbn [Js.replace]; now rewrite H.
Qed.

Lemma replace_bearer (t : string) : Js.replace "Bearer " "" ("Bearer " ++ t) = t.
Proof.
  rewrite replace_at_start by apply prefix_app.
  now rewrite slice_app.
Qed.

Lemma get_set {V} (k k' : string) (v : V) (o : Js.obj V) :
  Js.get k' (Js.set k v o) = if k =? k' then Some v else Js.get k' o.
Proof.
  induction o as [|[k0 v0] r IH]; simpl.
  - reflexivity.
  - destruct (String.eqb_spec k0 k) as [->|Hk]; simpl.
    + destruct (String.eqb_spec k k'); reflexivity.
    + rewrite IH.
      destruct (String.eqb_spec k0 k') as [->|]; [|reflexivity].
      destruct (String.eqb_spec k k'); [congruence | reflexivity].
Qed.

Lemma set_fresh {V} (k : string) (v : V) (o : Js.obj V) :
  ~ In k (Js.keys o) -> Js.set k v o = (o ++ [(k, v)])%list.
Proof.
  induction o as [|[k0 v0] r IH]; simpl; intros H; [reflexivity|].
  destruct (String.eqb_spec k0 k) as [->|_].
  - elim H; now left.
  - f_equal. apply IH. intros Hin; apply H; now right.
Qed.

Lemma keys_app {V} (a b : Js.obj V) :
  Js.keys (a ++ b)%list = (Js.keys a ++ Js.keys b)%list.
Proof. apply map_app. Qed.

(** Spreading entries with fresh, pairwise distinct keys appends them. *)
Lemma spread_fresh {V} (b a : Js.obj V) :
  NoDup (Js.keys b) ->
  (forall k, In k (Js.keys b) -> ~ In k (Js.keys a)) ->
  Js.spread a b = (a ++ b)%list.
Proof.
  unfold Js.spread. revert a.
  induction b as [|[k v] r IH]; intros a Hnd Hfresh; simpl.
  - now rewrite app_nil_r.
  - simpl in Hnd. inversion Hnd as [|? ? Hk Hr]; subst.
    rewrite set_fresh by (apply Hfresh; now left).
    rewrite IH; [now rewrite <- app_assoc | assumption |].
    intros k' Hin. rewrite keys_app, in_app_iff. simpl.
    intros [Ha | [<- | []]].
    + apply (Hfresh k'); [now right | assumption].
    + contradiction.
Qed.

Lemma keys_set {V} (P : string -> Prop) (k : string) (v : V) (o : Js.obj V) :
  P k -> Forall P (Js.keys o) -> Forall P (Js.keys (Js.set k v o)).
Proof.
  intros Hk. induction o as [|[k0 v0] r IH]; simpl; intros H.
  - now constructor.
  - inversion H as [|? ? H0 Hr]; subst.
    destruct (k0 =? k); simpl; constructor; auto.
Qed.

Lemma keys_spread {V} (P : string -> Prop) (b a : Js.obj V) :
  Forall P (Js.keys a) -> Forall P (Js.keys b) -> Forall P (Js.keys (Js.spread a b)).
Proof.
  unfold Js.spread. revert a.
  induction b as [|[k v] r IH]; intros a Ha Hb; simpl; [assumption|].
  inversion Hb as [|? ? Hk Hr]; subst.
  apply IH; [now apply keys_set | assumption].
Qed.

(* ================================================================== *)
(** ** JSON texts *)
(* ================================================================== *)

Lemma escape_char_plain (c : ascii) :
  JSON.plain_char c = true -> JSON.escape_char c = String c "".
Proof.
  destruct c as [[] [] [] [] [] [] [] []]; intros H;
    try discriminate H; reflexivity.
Qed.

Lemma escape_plain (s : string) : JSON.plain s = true -> JSON.escape s = s.
Proof.
  induction s as [|c r IH]; simpl; [reflexivity|].
  intros H. apply andb_true_iff in H. destruct H as [Hc Hr].
  now rewrite (escape_char_plain c Hc), (IH Hr).
Qed.

Lemma letter_plain (c : ascii) : JSON.is_letter c = true -> JSON.plain_char c = true.
Proof.
  destruct c as [[] [] [] [] [] [] [] []]; intros H;
    try discriminate H; reflexivity.
Qed.

Lemma name_key_plain (k : string) : JSON.name_key k = true -> JSON.plain k = true.
Proof.
  destruct k as [|c r]; simpl; [discriminate|].
  intros H. apply andb_true_iff in H. destruct H as [Hc Hr].
  now rewrite (letter_plain c Hc), Hr.
Qed.

Lemma quote_plain (s : string) :
  JSON.plain s = true -> JSON.quote s = String JSON.dq (s ++ String JSON.dq "").
Proof. intros H. unfold JSON.quote. now rewrite (escape_plain s H). Qed.

Lemma stringify_elements (elems : list JSValue) :
  elems <> [] ->
  Forall (fun x => JSON.text (JSON.stringify x) x) elems ->
  JSON.elements (String.concat "," (map JSON.stringify elems)) elems.
Proof.
  induction elems as [|x [|y r] IH]; intros Hne H; [congruence| |].
  - inversion H; subst. simpl. now constructor.
  - inversion H as [|? ? Hx Hr]; subst.
    change (String.concat "," (map JSON.stringify (x :: y :: r)))
      with (JSON.stringify x ++ "," ++ String.concat "," (map JSON.stringify (y :: r))).
    apply JSON.elements_more; [assumption|].
    apply IH; [discriminate | assumption].
Qed.

Lemma stringify_members (members : list (string * JSValue)) :
  members <> [] ->
  Forall (fun kv => JSON.name_key (fst kv) = true /\
                    JSON.text (JSON.stringify (snd kv)) (snd kv)) members ->
  JSON.members (String.concat "," (map JSON.member_text members)) members.
Proof.
  induction members as [|[k x] [|kv r] IH]; intros Hne H; [congruence| |].
  - inversion H as [|? ? [Hk Hx] _]; subst.
    change (String.concat "," (map JSON.member_text [(k, x)]))
      with (JSON.quote k ++ ":" ++ JSON.stringify x).
    rewrite (quote_plain k (name_key_plain k Hk)).
    exact (JSON.members_one "" k "" _ _ eq_refl Hk eq_refl Hx).
  - inversion H as [|? ? [Hk Hx] Hr]; subst.
    change (String.concat "," (map JSON.member_text ((k, x) :: kv :: r)))
      with ((JSON.quote k ++ ":" ++ JSON.stringify x)
              ++ "," ++ String.concat "," (map JSON.member_text (kv :: r))).
    rewrite (quote_plain k (name_key_plain k Hk)), string_app_assoc.
    exact (JSON.members_more "" k "" _ _ _ _ eq_refl Hk eq_refl Hx
             (IH ltac:(discriminate) Hr)).
Qed.

Lemma in_fragment_elements (elems : list JSValue) :
  fold_right (fun x acc => JSON.in_fragment x /\ acc) True elems ->
  Forall JSON.in_fragment elems.
Proof.
  induction elems as [|x r IH]; simpl; [constructor|].
  intros [Hx Hr]. constructor; auto.
Qed.

Lemma in_fragment_members (members : list (string * JSValue)) :
  fold_right (fun kv acc => let '(k, x) := kv in
                            JSON.name_key k = true /\ JSON.in_fragment x /\ acc)
             True members ->
  Forall (fun kv => JSON.name_key (fst kv) = true /\ JSON.in_fragment (snd kv))
         members.
Proof.
  induction members as [|[k x] r IH]; simpl; [constructor|].
  intros [Hk [Hx Hr]]. constructor; auto.
Qed.

(** On the values of the fragment, [JSON.parse] undoes [JSON.stringify]. *)
Theorem stringify_denotes (v : JSValue) :
  JSON.in_fragment v -> JSON.text (JSON.stringify v) v.
Proof.
  induction v as [| b | z | s | elems IH | members IH] using JSValue_nested_ind;
    intros Hv.
  - constructor.
  - destruct b; constructor.
  - now constructor.
  - simpl in *. rewrite (quote_plain s Hv). now constructor.
  - destruct elems as [|x r].
    + exact (JSON.text_arr_empty "" eq_refl).
    + change (JSON.stringify (JArr (x :: r)))
        with ("[" ++ String.concat "," (map JSON.stringify (x :: r)) ++ "]").
      apply JSON.text_arr. apply stringify_elements; [discriminate|].
      apply in_fragment_elements in Hv.
      rewrite Forall_forall in *. auto.
  - destruct members as [|m r].
    + exact (JSON.text_obj_empty "" eq_refl).
    + destruct Hv as [Hnd Hms].
      change (JSON.stringify (JObj (m :: r)))
        with ("{" ++ String.concat "," (map JSON.member_text (m :: r)) ++ "}").
      apply JSON.text_obj; [|assumption].
      apply stringify_members; [discriminate|].
      apply in_fragment_members in Hms.
      rewrite Forall_forall in *. intros kv Hin.
      destruct (Hms kv Hin) as [Hk Hx]. auto.
Qed.

(* ================================================================== *)
(** ** Field values on the wire *)
(* ================================================================== *)

Lemma header_on_wire_fold (name : string) (o : Js.obj string) :
  header_on_wire name o = fold_left (pick name) o None.
Proof. reflexivity. Qed.

Lemma pick_fold_init (name : string) (o : Js.obj string) (init : option string) :
  fold_left (pick name) o init =
  match fold_left (pick name) o None with
  | Some v => Some v
  | None => init
  end.
Proof.
  revert init. induction o as [|kv r IH]; intros init; simpl; [reflexivity|].
  rewrite IH. rewrite (IH (pick name None kv)).
  destruct (fold_left (pick name) r None); [reflexivity|].
  unfold pick. now destruct (_ =? _).
Qed.

Lemma header_on_wire_app (name : string) (a b : Js.obj string) :
  header_on_wire name (a ++ b)%list =
  match header_on_wire name b with
  | Some v => Some v
  | None => header_on_wire name a
  end.
Proof.
  rewrite !header_on_wire_fold, fold_left_app. apply pick_fold_init.
Qed.

(** A field that no key of the object spells is not sent. *)
Lemma header_on_wire_absent (name : string) (o : Js.obj string) :
  Forall (fun k => Js.toLowerCase k <> Js.toLowerCase name) (Js.keys o) ->
  header_on_wire name o = None.
Proof.
  rewrite header_on_wire_fold.
  induction o as [|[k v] r IH]; simpl; intros H; [reflexivity|].
  inversion H as [|? ? Hk Hr]; subst.
  unfold pick at 2; simpl.
  apply String.eqb_neq in Hk. rewrite Hk. now apply IH.
Qed.

(** Writing a key that spells another field leaves the field as it was. *)
Lemma pick_set_other (name k v : string) (o : Js.obj string) (init : option string) :
  Js.toLowerCase k <> Js.toLowerCase name ->
  fold_left (pick name) (Js.set k v o) init = fold_left (pick name) o init.
Proof.
  intros Hk. apply String.eqb_neq in Hk.
  revert init. induction o as [|[k0 v0] r IH]; intros init; simpl.
  - unfold pick; simpl. now rewrite Hk.
  - destruct (String.eqb_spec k0 k) as [->|_]; simpl.
    + unfold pick at 2 4; simpl. now rewrite Hk.
    + apply IH.
Qed.

Lemma header_on_wire_set_other (name k v : string) (o : Js.obj string) :
  Js.toLowerCase k <> Js.toLowerCase name ->
  header_on_wire name (Js.set k v o) = header_on_wire name o.
Proof. intros H. rewrite !header_on_wire_fold. now apply pick_set_other. Qed.

Lemma header_on_wire_spread_other (name : string) (b a : Js.obj string) :
  Forall (fun k => Js.toLowerCase k <> Js.toLowerCase name) (Js.keys b) ->
  header_on_wire name (Js.spread a b) = header_on_wire name a.
Proof.
  unfold Js.spread. revert a.
  induction b as [|[k v] r IH]; intros a H; simpl; [reflexivity|].
  inversion H as [|? ? Hk Hr]; subst.
  rewrite IH by assumption. now apply header_on_wire_set_other.
Qed.

Lemma keys_filter_incl {V} (p : string * V -> bool) (P : string -> Prop)
      (o : Js.obj V) :
  Forall P (Js.keys o) -> Forall P (Js.keys (filter p o)).
Proof.
  induction o as [|kv r IH]; simpl; intros H; [constructor|].
  inversion H; subst. destruct (p kv); simpl; [constructor|]; auto.
Qed.

Lemma filter_header_mapping (p : string * string -> bool) (o : Js.obj string) :
  header_mapping o -> header_mapping (filter p o).
Proof.
  unfold header_mapping, Js.keys.
  induction o as [|kv r IH]; simpl; intros H; [constructor|].
  inversion H as [|? ? Hfresh Hr]; subst.
  destruct (p kv); simpl; [constructor|]; auto.
  intros Hin. apply Hfresh.
  rewrite map_map, in_map_iff in *.
  destruct Hin as [x [Hx Hf]]. exists x. split; [assumption|].
  now apply filter_In in Hf.
Qed.

Lemma header_mapping_keys (o : Js.obj string) :
  header_mapping o -> NoDup (Js.keys o).
Proof. apply NoDup_map_inv. Qed.

Lemma keys_set_incl {V} (k k' : string) (v : V) (o : Js.obj V) :
  In k' (Js.keys (Js.set k v o)) -> k' = k \/ In k' (Js.keys o).
Proof.
  intros Hin.
  assert (H : Forall (fun x => x = k \/ In x (Js.keys o)) (Js.keys (Js.set k v o))).
  { apply keys_set; [now left|]. apply Forall_forall. now right. }
  rewrite Forall_forall in H. now apply H.
Qed.

(** An entry spread from a header mapping onto an object that does not
    have its key already is what the field of that name carries. *)
Lemma spread_member_on_wire (b a : Js.obj string) (k v : string) :
  header_mapping b -> In (k, v) b -> ~ In k (Js.keys a) ->
  header_on_wire k (Js.spread a b) = Some v.
Proof.
  unfold header_mapping, Js.spread. revert a.
  induction b as [|[k1 v1] r IH]; intros a Hmap Hin Hfresh; [destruct Hin|].
  simpl in Hmap. inversion Hmap as [|? ? Hk1 Hr]; subst. simpl.
  destruct Hin as [Heq | Hin].
  - inversion Heq; subst.
    rewrite set_fresh by assumption.
    change (fold_left _ r ?x) with (Js.spread x r).
    rewrite header_on_wire_spread_other.
    + rewrite header_on_wire_app. unfold header_on_wire, pick; simpl.
      now rewrite String.eqb_refl.
    + apply Forall_forall. intros k' Hk' E. apply Hk1.
      rewrite <- E. now apply in_map.
  - apply IH; [assumption|assumption|].
    intros Hk. destruct (keys_set_incl _ _ _ _ Hk) as [-> | Ha].
    + apply Hk1. apply in_map. unfold Js.keys.
      change k1 with (fst (k1, v)). now apply in_map.
    + contradiction.
Qed.

Lemma keys_filter_pass {V} (p : string -> bool) (o : Js.obj V) :
  Forall (fun k => p k = true) (Js.keys (filter (fun kv => p (fst kv)) o)).
Proof.
  induction o as [|kv r IH]; simpl; [constructor|].
  destruct (p (fst kv)) eqn:E; simpl; [constructor|]; auto.
Qed.

(* ================================================================== *)
(** ** Routing *)
(* ================================================================== *)

Lemma api_path_not_health (path : string) :
  Js.startsWith path "/api/" = true -> match_health path = false.
Proof.
  unfold Js.startsWith. intros H.
  rewrite (prefix_split _ _ H). reflexivity.
Qed.

Lemma api_path_matches (path : string) :
  Js.startsWith path "/api/" = true -> match_api path = true.
Proof.
  unfold Js.startsWith, match_api. intros H.
  rewrite (prefix_split _ _ H), toLowerCase_app.
  apply (prefix_app "/api/").
Qed.

(** A truthy value that starts with [Bearer ] passes the check of
    [verifyAuth]. *)
Lemma bearer_passes (t : string) :
  negb (Js.truthy ("Bearer " ++ t)) || negb (Js.startsWith ("Bearer " ++ t) "Bearer ")
  = false.
Proof.
  unfold Js.startsWith. now rewrite (prefix_app "Bearer " t).
Qed.

Lemma not_bearer_fails (v : string) :
  Js.startsWith v "Bearer " = false ->
  negb (Js.truthy v) || negb (Js.startsWith v "Bearer ") = true.
Proof. intros ->. apply orb_true_r. Qed.

Section Pipeline.

Variable cfg : Config.
Variable qs_parse : string -> JSValue.

Lemma app_api (req : Request) :
  Js.startsWith (req_path req) "/api/" = true ->
  app cfg qs_parse req = verifyAuth req (proxy cfg qs_parse req).
Proof.
  intros H. unfold app.
  rewrite (api_path_not_health _ H), andb_false_r.
  now rewrite (api_path_matches _ H).
Qed.

Lemma verifyAuth_bearer (req : Request) (next : User -> Prog Response)
      (t : string) :
  Js.get "authorization" (req_headers req) = Some ("Bearer " ++ t) ->
  verifyAuth req next =
  GetUser t (fun outcome =>
    match outcome with
    | GetUserResolved user error =>
        match error with
        | Some _ => Ret invalid_token
        | None => match user with
                  | None => Ret user_not_found
                  | Some u => next u
                  end
        end
    | GetUserThrew _ => Ret auth_failed
    end).
Proof.
  intros H. unfold verifyAuth. rewrite H, bearer_passes.
  now rewrite replace_bearer.
Qed.

Lemma verifyAuth_rejects (req : Request) (next : User -> Prog Response) :
  Js.get "authorization" (req_headers req) = None \/
  (exists v, Js.get "authorization" (req_headers req) = Some v /\
             Js.startsWith v "Bearer " = false) ->
  verifyAuth req next = Ret missing_header.
Proof.
  unfold verifyAuth. intros [-> | [v [-> Hv]]]; [reflexivity|].
  now rewrite (not_bearer_fails _ Hv).
Qed.

(** The run of an authenticated request: one call to the identity
    provider, one to the internal API, and the answer to its outcome. *)
Lemma run_authenticated (w : World) (req : Request) (t : string) (u : User) :
  authenticated w req t u ->
  run w (app cfg qs_parse req) =
  (match internal_api w (proxy_config cfg qs_parse req u) with
   | AxiosFulfilled response => relayed response
   | AxiosRejected error => proxy_error error
   end,
   [CallIdentityProvider t; CallInternalApi (proxy_config cfg qs_parse req u)]).
Proof.
  intros (Hpath & Hauth & Hres).
  rewrite (app_api _ Hpath), (verifyAuth_bearer _ _ _ Hauth).
  simpl. rewrite Hres. simpl.
  now destruct (internal_api w _).
Qed.

End Pipeline.

(* ================================================================== *)
(** ** The headers of the downstream request *)
(* ================================================================== *)

Section DownstreamHeaders.

Variable cfg : Config.
Variable qs_parse : string -> JSValue.

Lemma injected_headers_entries (user : User) :
  injected_headers cfg user =
  (("Content-Type", "application/json")
     :: (if Js.truthy (INTERNAL_API_KEY cfg)
         then [("X-Internal-Key", INTERNAL_API_KEY cfg)] else [])
     ++ [("X-User-Id", user_id user); ("X-User-Email", user_email user)])%list.
Proof.
  unfold injected_headers. now destruct (Js.truthy (INTERNAL_API_KEY cfg)).
Qed.

(** No key the proxy writes is in lower case, *)
Lemma injected_keys_capitalised (user : User) :
  Forall (fun k => Js.toLowerCase k <> k) (Js.keys (injected_headers cfg user)).
Proof.
  rewrite injected_headers_entries.
  destruct (Js.truthy (INTERNAL_API_KEY cfg)); simpl;
    repeat constructor; intros [=].
Qed.

(** and none spells a field of the blocklist. *)
Lemma injected_keys_forwarded (user : User) :
  Forall (fun k => forwarded k = true) (Js.keys (injected_headers cfg user)).
Proof.
  rewrite injected_headers_entries.
  destruct (Js.truthy (INTERNAL_API_KEY cfg)); simpl;
    repeat constructor.
Qed.

Lemma proxy_keys_forwarded (req : Request) (user : User) :
  Forall (fun k => forwarded k = true) (Js.keys (proxy_headers cfg req user)).
Proof.
  unfold proxy_headers, Js.fromEntries.
  apply keys_spread; [apply injected_keys_forwarded|].
  apply keys_spread; [constructor|].
  apply (keys_filter_pass forwarded).
Qed.

(** A forwarded incoming header, its name in lower case, is what goes on
    the wire for its field. *)
Lemma forwarded_header_on_wire (req : Request) (user : User) (k v : string) :
  header_mapping (req_headers req) ->
  In (k, v) (req_headers req) ->
  forwarded k = true ->
  Js.toLowerCase k = k ->
  header_on_wire k (proxy_headers cfg req user) = Some v.
Proof.
  intros Hmap Hin Hk Hlow. unfold proxy_headers, Js.fromEntries, Js.entries.
  set (kept := filter (fun kv => forwarded (fst kv)) (req_headers req)).
  assert (Hkept : header_mapping kept) by now apply filter_header_mapping.
  rewrite (spread_fresh kept [])
    by (auto using header_mapping_keys; intros ? _ []).
  apply spread_member_on_wire; [assumption| |].
  - apply filter_In. now split.
  - intros Hinj. pose proof (injected_keys_capitalised user) as Hcap.
    rewrite Forall_forall in Hcap. exact (Hcap k Hinj Hlow).
Qed.

(** When the caller sends no field of that name, the identity headers
    carry the resolved identity. *)
Lemma identity_headers_when_not_supplied (req : Request) (user : User) :
  Forall (fun k => Js.toLowerCase k <> "x-user-id" /\
                   Js.toLowerCase k <> "x-user-email")
         (Js.keys (req_headers req)) ->
  header_on_wire "X-User-Id" (proxy_headers cfg req user) = Some (user_id user) /\
  header_on_wire "X-User-Email" (proxy_headers cfg req user) = Some (user_email user).
Proof.
  intros H. unfold proxy_headers, Js.fromEntries, Js.entries.
  split.
  - rewrite header_on_wire_spread_other.
    + rewrite injected_headers_entries.
      now destruct (Js.truthy (INTERNAL_API_KEY cfg)).
    + apply keys_spread; [constructor|]. apply keys_filter_incl.
      eapply Forall_impl; [|exact H]. simpl. tauto.
  - rewrite header_on_wire_spread_other.
    + rewrite injected_headers_entries.
      now destruct (Js.truthy (INTERNAL_API_KEY cfg)).
    + apply keys_spread; [constructor|]. apply keys_filter_incl.
      eapply Forall_impl; [|exact H]. simpl. tauto.
Qed.

(** The values the proxy writes, before the incoming headers are spread
    over them. *)
Lemma injected_values (user : User) :
  header_on_wire "x-user-id" (injected_headers cfg user) = Some (user_id user) /\
  header_on_wire "x-user-email" (injected_headers cfg user) = Some (user_email user) /\
  header_on_wire "content-type" (injected_headers cfg user) = Some "application/json" /\
  header_on_wire "x-internal-key" (injected_headers cfg user) =
    (if Js.truthy (INTERNAL_API_KEY cfg) then Some (INTERNAL_API_KEY cfg) else None).
Proof.
  rewrite injected_headers_entries.
  now destruct (Js.truthy (INTERNAL_API_KEY cfg)).
Qed.

(** C2.  In the [headers] object of the downstream request the incoming
    headers that pass the filter are spread after the entries the proxy
    writes: when the caller sends [x-user-id], [x-user-email],
    [x-internal-key] or [content-type], the downstream request carries the
    caller's value for that field, not the identity's id or email, the
    configured secret or [application/json] (the values of
    [injected_values]). *)
Theorem caller_headers_take_precedence
        (req : Request) (user : User) (k v : string) :
  header_mapping (req_headers req) ->
  In (k, v) (req_headers req) ->
  In k ["x-user-id"; "x-user-email"; "x-internal-key"; "content-type"] ->
  header_on_wire k (ax_headers (proxy_config cfg qs_parse req user)) = Some v.
Proof.
  intros Hmap Hin Hk. simpl.
  apply forwarded_header_on_wire; [assumption|assumption| |];
    simpl in Hk; destruct Hk as [<-|[<-|[<-|[<-|[]]]]]; reflexivity.
Qed.

End DownstreamHeaders.

(* ================================================================== *)
(** ** Authentication *)
(* ================================================================== *)

Section Authentication.

Variable cfg : Config.
Variable qs_parse : string -> JSValue.

(** C3.  A request under [/api/] with no [authorization] header, or with
    one that does not start with [Bearer ], is answered 401 with the
    "Missing or invalid Authorization header" body, and the run makes no
    call at all: neither the identity provider nor the internal API is
    contacted. *)
Theorem missing_or_malformed_authorization_is_401 (w : World) (req : Request) :
  Js.startsWith (req_path req) "/api/" = true ->
  (Js.get "authorization" (req_headers req) = None \/
   exists v, Js.get "authorization" (req_headers req) = Some v /\
             Js.startsWith v "Bearer " = false) ->
  run w (app cfg qs_parse req) =
  ({| res_status := 401;
      res_headers := [];
      res_body :=
        Json (JObj [("error", JStr "Unauthorized");
                    ("message",
                     JStr "Missing or invalid Authorization header. Expected: Bearer <token>")]) |},
   []).
Proof.
  intros Hpath Hauth.
  rewrite (app_api _ _ _ Hpath), (verifyAuth_rejects _ _ Hauth).
  reflexivity.
Qed.

(** C8.  When the [authorization] value starts with [Bearer ] (this case,
    one space), the identity provider is called with exactly the remainder
    of the value; the value [Bearer ] alone calls it with the empty string;
    a value that does not start with [Bearer ] is answered 401 without any
    call. *)
Theorem bearer_credential_is_the_remainder
        (req : Request) (next : User -> Prog Response) :
  (forall v, Js.get "authorization" (req_headers req) = Some v ->
             Js.startsWith v "Bearer " = true ->
             exists t k, v = "Bearer " ++ t /\ verifyAuth req next = GetUser t k) /\
  (Js.get "authorization" (req_headers req) = Some "Bearer " ->
   exists k, verifyAuth req next = GetUser "" k) /\
  (forall v, Js.get "authorization" (req_headers req) = Some v ->
             Js.startsWith v "Bearer " = false ->
             verifyAuth req next =
             Ret {| res_status := 401;
                    res_headers := [];
                    res_body :=
                      Json (JObj [("error", JStr "Unauthorized");
                                  ("message",
                                   JStr "Missing or invalid Authorization header. Expected: Bearer <token>")]) |}).
Proof.
  repeat split.
  - intros v Hget Hv. unfold Js.startsWith in Hv.
    exists (Js.slice 7 v). eexists. split.
    + exact (prefix_split _ _ Hv).
    + apply verifyAuth_bearer. rewrite Hget. f_equal.
      exact (prefix_split _ _ Hv).
  - intros Hget. eexists. exact (verifyAuth_bearer req next "" Hget).
  - intros v Hget Hv. apply verifyAuth_rejects. right. now exists v.
Qed.

(** C4.  For a request under [/api/] that passes the [Bearer ] check, in
    any world: an explicit error of the resolver gives 401 "Invalid or
    expired token"; no error and no user gives 401 "User not found"; a
    resolver call that throws gives 500 with an error and message body; in
    these three cases the only call made is the one to the identity
    provider.  A user record gives the run of the forwarder with that
    user. *)
Theorem resolver_outcome_mapping (w : World) (req : Request) (t : string) :
  Js.startsWith (req_path req) "/api/" = true ->
  Js.get "authorization" (req_headers req) = Some ("Bearer " ++ t) ->
  (forall u e, identity_provider w t = GetUserResolved u (Some e) ->
     run w (app cfg qs_parse req) =
     ({| res_status := 401;
         res_headers := [];
         res_body := Json (JObj [("error", JStr "Unauthorized");
                                 ("message", JStr "Invalid or expired token")]) |},
      [CallIdentityProvider t])) /\
  (identity_provider w t = GetUserResolved None None ->
     run w (app cfg qs_parse req) =
     ({| res_status := 401;
         res_headers := [];
         res_body := Json (JObj [("error", JStr "Unauthorized");
                                 ("message", JStr "User not found")]) |},
      [CallIdentityProvider t])) /\
  (forall e, identity_provider w t = GetUserThrew e ->
     run w (app cfg qs_parse req) =
     ({| res_status := 500;
         res_headers := [];
         res_body := Json (JObj [("error", JStr "Authentication failed");
                                 ("message", JStr "Internal authentication error")]) |},
      [CallIdentityProvider t])) /\
  (forall u, identity_provider w t = GetUserResolved (Some u) None ->
     run w (app cfg qs_parse req) =
     (fst (run w (proxy cfg qs_parse req u)),
      CallIdentityProvider t :: snd (run w (proxy cfg qs_parse req u)))).
Proof.
  intros Hpath Hauth.
  rewrite (app_api _ _ _ Hpath), (verifyAuth_bearer _ _ _ Hauth).
  repeat split.
  - intros u e H. simpl. now rewrite H.
  - intros H. simpl. now rewrite H.
  - intros e H. simpl. now rewrite H.
  - intros u H. cbn -[proxy]. rewrite H.
    now destruct (run w (proxy cfg qs_parse req u)).
Qed.

End Authentication.

(* ================================================================== *)
(** ** Forwarding *)
(* ================================================================== *)

Section Forwarding.

Variable cfg : Config.
Variable qs_parse : string -> JSValue.

Lemma proxy_error_cases (e : JsError) :
  (err_code e = Some "ECONNREFUSED" ->
   proxy_error e =
   json_error 503 "Service Unavailable" "Internal API is not reachable") /\
  (err_code e = Some "ETIMEDOUT" ->
   proxy_error e =
   json_error 504 "Gateway Timeout" "Internal API request timed out") /\
  (err_code e <> Some "ECONNREFUSED" -> err_code e <> Some "ETIMEDOUT" ->
   proxy_error e =
   json_error 500 "Internal Server Error"
              "An error occurred while proxying the request").
Proof.
  unfold proxy_error. repeat split.
  - now intros ->.
  - now intros ->.
  - intros H1 H2. destruct (err_code e) as [code|]; [|reflexivity].
    destruct (String.eqb_spec code "ECONNREFUSED"); [congruence|].
    destruct (String.eqb_spec code "ETIMEDOUT"); [congruence|].
    reflexivity.
Qed.

(** C5.  When the call to the internal API of an authenticated request is
    rejected, the run still ends with a response: 503 "Service
    Unavailable" / "Internal API is not reachable" for the code
    ECONNREFUSED, 504 with an error and message body for ETIMEDOUT, and 500
    with an error and message body for every other rejection. *)
Theorem transport_failure_mapping
        (w : World) (req : Request) (t : string) (u : User) (e : JsError) :
  authenticated w req t u ->
  internal_api w (proxy_config cfg qs_parse req u) = AxiosRejected e ->
  exists r : Response,
    run w (app cfg qs_parse req) =
    (r, [CallIdentityProvider t;
         CallInternalApi (proxy_config cfg qs_parse req u)]) /\
    (err_code e = Some "ECONNREFUSED" ->
     r = {| res_status := 503;
            res_headers := [];
            res_body := Json (JObj [("error", JStr "Service Unavailable");
                                    ("message", JStr "Internal API is not reachable")]) |}) /\
    (err_code e = Some "ETIMEDOUT" ->
     r = {| res_status := 504;
            res_headers := [];
            res_body := Json (JObj [("error", JStr "Gateway Timeout");
                                    ("message", JStr "Internal API request timed out")]) |}) /\
    (err_code e <> Some "ECONNREFUSED" -> err_code e <> Some "ETIMEDOUT" ->
     r = {| res_status := 500;
            res_headers := [];
            res_body := Json (JObj [("error", JStr "Internal Server Error");
                                    ("message",
                                     JStr "An error occurred while proxying the request")]) |}).
Proof.
  intros Hauth Hrej. exists (proxy_error e). split.
  - rewrite (run_authenticated _ _ _ _ _ _ Hauth). now rewrite Hrej.
  - exact (proxy_error_cases e).
Qed.

End Forwarding.

(* ================================================================== *)
(** ** The relayed response *)
(* ================================================================== *)

Lemma relay_headers_fold (name : string) (l hs : Js.obj string) :
  Js.get (Js.toLowerCase name)
         (fold_left (fun hs kv => setHeader (fst kv) (snd kv) hs) l hs) =
  fold_left (pick name) l (Js.get (Js.toLowerCase name) hs).
Proof.
  revert hs. induction l as [|[k v] r IH]; intros hs; simpl; [reflexivity|].
  rewrite IH. f_equal. unfold setHeader, pick; simpl. apply get_set.
Qed.

(** Every field of the downstream response is set on the relayed response
    (for a field given more than once, its last value). *)
Lemma relay_headers (name : string) (response : AxiosResponse) :
  getHeader name (relay response) = header_on_wire name (resp_headers response).
Proof.
  unfold getHeader, relay; simpl. apply relay_headers_fold.
Qed.

Lemma entity_send_json (v : JSValue) :
  sent_as_json v = true -> JSON.safe v = true ->
  entity (Send v) = Some (JSON.stringify v).
Proof.
  destruct v; intros H Hsafe; try discriminate;
    unfold entity, written; now rewrite Hsafe.
Qed.

(** On accepted fields the loop sets every header and does not throw. *)
Lemma set_headers_accepted (l hs : Js.obj string) :
  accepted l = true ->
  set_headers l hs =
  (fold_left (fun hs kv => setHeader (fst kv) (snd kv) hs) l hs, None).
Proof.
  revert hs. induction l as [|[k v] r IH]; intros hs H; simpl in *.
  - reflexivity.
  - apply andb_prop in H as [Hkv Hr]. apply andb_prop in Hkv as [Hk Hv].
    unfold setHeader_throws. rewrite Hk, Hv. simpl. now apply IH.
Qed.

(** A status code of three digits can be written. *)
Lemma writable_three_digits (s : Z) :
  (100 <= s <= 999)%Z -> writable_status s = true.
Proof.
  intros H. unfold writable_status, to_int32.
  rewrite Z.mod_small by lia.
  apply andb_true_intro. split; apply Z.leb_le; lia.
Qed.

(** The relay of a response with accepted fields, a status code of three
    digits and a body that is not a lone number does not throw. *)
Lemma relay_does_not_throw (response : AxiosResponse) :
  accepted (resp_headers response) = true ->
  (100 <= resp_status response <= 999)%Z ->
  sent_as_status (resp_data response) = false ->
  relayed response = relay response.
Proof.
  intros Hfields Hstatus Hdata. unfold relayed, relay_throws, Js.entries.
  rewrite (set_headers_accepted _ _ Hfields).
  replace (statusCode_sent response) with (resp_status response).
  - now rewrite (writable_three_digits _ Hstatus).
  - unfold statusCode_sent. now destruct (resp_data response).
Qed.

(** With the configuration of the proxy, axios settles on the response to
    its one request, whatever the status code. *)
Lemma axios_of_proxy_config
      (redirected : AxiosConfig -> AxiosResponse -> AxiosConfig)
      (service : AxiosConfig -> ServiceOutcome)
      (cfg : Config) (qs_parse : string -> JSValue)
      (req : Request) (u : User) :
  axios redirected service (proxy_config cfg qs_parse req u) =
  match service (proxy_config cfg qs_parse req u) with
  | Answered response => AxiosFulfilled response
  | NoAnswer error => AxiosRejected error
  end.
Proof.
  unfold axios. simpl.
  destruct (service (proxy_config cfg qs_parse req u)) as [response|error];
    [|reflexivity].
  unfold settle. simpl. now rewrite orb_true_r.
Qed.

Section Relay.

Variable cfg : Config.
Variable qs_parse : string -> JSValue.

(** C6, as amended.  The internal API is reached through axios.  For
    every response it gives to the request of an authenticated caller, of
    any status code from 100 to 999 (4xx, 5xx and redirects included), with
    header fields as Node parses them and a body that axios does not
    decode to a lone number: axios hands the response over, and the proxy
    answers with the downstream status code, sets every downstream
    response header and gives [res.send] the body as axios decoded it.  A
    decoded string is written as the same text; a decoded boolean, array
    or object is written again by [JSON.stringify]. *)
Theorem relay_of_downstream_response
        (redirected : AxiosConfig -> AxiosResponse -> AxiosConfig)
        (service : AxiosConfig -> ServiceOutcome)
        (w : World) (req : Request) (t : string) (u : User)
        (response : AxiosResponse) :
  authenticated w req t u ->
  served redirected service w ->
  service (proxy_config cfg qs_parse req u) = Answered response ->
  accepted (resp_headers response) = true ->
  (100 <= resp_status response <= 999)%Z ->
  sent_as_status (resp_data response) = false ->
  exists r : Response,
    run w (app cfg qs_parse req) =
    (r, [CallIdentityProvider t;
         CallInternalApi (proxy_config cfg qs_parse req u)]) /\
    res_status r = resp_status response /\
    (forall name,
        getHeader name r = header_on_wire name (resp_headers response)) /\
    res_body r = Send (resp_data response) /\
    (forall s, resp_data response = JStr s -> entity (res_body r) = Some s) /\
    (sent_as_json (resp_data response) = true ->
     JSON.safe (resp_data response) = true ->
     entity (res_body r) = Some (JSON.stringify (resp_data response))).
Proof.
  intros Hauth Hserved Hanswer Hfields Hstatus Hdata. exists (relay response).
  rewrite (run_authenticated _ _ _ _ _ _ Hauth), Hserved.
  rewrite axios_of_proxy_config, Hanswer.
  rewrite (relay_does_not_throw _ Hfields Hstatus Hdata).
  repeat split.
  - intros name. apply relay_headers.
  - intros s Hs. simpl. now rewrite Hs.
  - simpl. now apply entity_send_json.
Qed.

End Relay.

(** The text [{"name": "alice"}] is JSON for [{ name: 'alice' }]. *)
Lemma alice_text_denotes_alice_data :
  JSON.text Sample.alice_text Sample.alice_data.
Proof.
  assert (Hv : JSON.text (" " ++ String JSON.dq ("alice" ++ String JSON.dq "") ++ "")
                         (JStr "alice")).
  { apply JSON.text_pad; try reflexivity. now apply JSON.text_str. }
  pose proof (JSON.members_one "" "name" "" _ _ eq_refl eq_refl eq_refl Hv) as Hm.
  refine (JSON.text_obj _ _ Hm _).
  repeat constructor. simpl. tauto.
Qed.

(** C6, counterexample.  The internal API answers an authenticated GET
    with status 200 and the JSON text [{"name": "alice"}]; axios decodes
    it to [{ name: 'alice' }] and the proxy writes [{"name":"alice"}],
    which is not the downstream body byte for byte.  And when it answers
    with status 200 and the JSON text [42], axios decodes the number 42,
    [res.send] takes it for a status code that cannot be written and
    throws, and the proxy answers 500 with its own error body: neither the
    downstream status code nor the downstream body. *)
Lemma relay_rewrites_json_body :
  (JSON.text Sample.alice_text Sample.alice_data /\
   entity (res_body (fst (run
     (Sample.world_over (Sample.always Sample.alice_response))
     (app Sample.cfg Sample.qs_parse
          (Sample.request "GET" "/api/users" Sample.bearer)))))
   = Some (JSON.stringify Sample.alice_data) /\
   JSON.stringify Sample.alice_data <> Sample.alice_text) /\
  (JSON.text "42" (JNum 42) /\
   fst (run
     (Sample.world_over (Sample.always Sample.forty_two))
     (app Sample.cfg Sample.qs_parse
          (Sample.request "GET" "/api/users" Sample.bearer)))
   = {| res_status := 500;
        res_headers := [("content-type", "application/json"); ("x-trace", "7")];
        res_body := Json (JObj [("error", JStr "Internal Server Error");
                                ("message",
                                 JStr "An error occurred while proxying the request")]) |}).
Proof.
  split.
  - split; [exact alice_text_denotes_alice_data|].
    split; [reflexivity|].
    vm_compute. intros E. discriminate E.
  - split; [|reflexivity].
    apply (JSON.text_num 42). vm_compute. intros E. discriminate E.
Qed.

(* ================================================================== *)
(** ** The downstream URL *)
(* ================================================================== *)

Lemma has_question_mark_app (a b : string) :
  has_question_mark (a ++ "?" ++ b) = true.
Proof.
  induction a as [|c r IH]; simpl in *; [reflexivity|].
  rewrite IH. apply orb_true_r.
Qed.

Section DownstreamUrl.

Variable cfg : Config.
Variable qs_parse : string -> JSValue.

(** What follows [/api/] in [req.url] is appended to the base after one
    slash, the query string included. *)
Lemma internalUrl_of_api_url (req : Request) (rest : string) :
  req_url req = "/api/" ++ rest ->
  internalUrl cfg req = INTERNAL_API_URL cfg ++ "/" ++ rest.
Proof.
  intros H. unfold internalUrl, strip_api. rewrite H.
  rewrite (prefix_app "/api/" rest).
  change 5%nat with (String.length "/api/").
  now rewrite slice_app.
Qed.

(** Method, body and parsed query are handed to axios as they are. *)
Lemma proxy_config_passes (req : Request) (u : User) :
  ax_method (proxy_config cfg qs_parse req u) = req_method req /\
  ax_data (proxy_config cfg qs_parse req u) = req_body req /\
  ax_params (proxy_config cfg qs_parse req u) = req_query qs_parse req.
Proof. repeat split. Qed.

(** A request target with a query string reaches axios with the query
    string in [url] and the parsed query in [params]; unless the
    serialised [params] are empty, the requested URL has both. *)
Lemma requested_url_repeats_query
      (serialize : JSValue -> string) (req : Request) (u : User)
      (p q : string) :
  req_url req = "/api/" ++ p ++ "?" ++ q ->
  requested_url serialize (proxy_config cfg qs_parse req u) =
  let s := serialize (req_query qs_parse req) in
  if s =? "" then INTERNAL_API_URL cfg ++ "/" ++ p ++ "?" ++ q
  else INTERNAL_API_URL cfg ++ "/" ++ p ++ "?" ++ q ++ "&" ++ s.
Proof.
  intros H. unfold requested_url, buildURL. simpl.
  rewrite (internalUrl_of_api_url req (p ++ "?" ++ q) H).
  destruct (serialize (req_query qs_parse req) =? ""); [reflexivity|].
  replace (INTERNAL_API_URL cfg ++ "/" ++ p ++ "?" ++ q)
    with ((INTERNAL_API_URL cfg ++ "/" ++ p) ++ "?" ++ q)
    by now rewrite !string_app_assoc.
  rewrite has_question_mark_app.
  now rewrite !string_app_assoc.
Qed.

End DownstreamUrl.

(** C7, at [GET /api/users?page=2] with a valid token.  The URL handed to
    axios is the base, a slash and [users?page=2], not the base, a slash and
    the path suffix [users]; the parsed query [{ page: '2' }] is handed over
    as [params] as well, so the URL axios requests names [page] twice. *)
Theorem query_string_is_forwarded_twice :
  snd (run (Sample.world (Sample.answers 200 [] Sample.alice_data))
           (app Sample.cfg Sample.qs_parse Sample.paged))
  = [CallIdentityProvider "good-token";
     CallInternalApi
       (proxy_config Sample.cfg Sample.qs_parse Sample.paged Sample.alice)] /\
  ax_url (proxy_config Sample.cfg Sample.qs_parse Sample.paged Sample.alice)
  = "http://api.internal:8080/users?page=2" /\
  ax_params (proxy_config Sample.cfg Sample.qs_parse Sample.paged Sample.alice)
  = JObj [("page", JStr "2")] /\
  requested_url Sample.serialize
    (proxy_config Sample.cfg Sample.qs_parse Sample.paged Sample.alice)
  = "http://api.internal:8080/users?page=2&page=2".
Proof. repeat split. Qed.

(* ================================================================== *)
(** ** Routes without authentication *)
(* ================================================================== *)

Section OpenRoutes.

Variable cfg : Config.
Variable qs_parse : string -> JSValue.

(** C9, as amended.  A GET or HEAD request to [/health] is answered 200
    with [status: 'ok'], the current timestamp and the two configured
    URLs, whatever its headers are; the run reads the clock and makes no
    outbound call. *)
Theorem health_is_served_without_authentication (w : World) (req : Request) :
  req_method req = "GET" \/ req_method req = "HEAD" ->
  req_path req = "/health" ->
  run w (app cfg qs_parse req) =
  ({| res_status := 200;
      res_headers := [];
      res_body := Json (JObj [("status", JStr "ok");
                              ("timestamp", JStr (clock w));
                              ("supabase", JStr (SUPABASE_URL cfg));
                              ("internalApi", JStr (INTERNAL_API_URL cfg))]) |},
   [CallClock]).
Proof.
  intros Hm Hp. unfold app. rewrite Hp.
  destruct Hm as [-> | ->]; reflexivity.
Qed.

Lemma not_api_path (path : string) :
  Js.startsWith (Js.toLowerCase path) "/api/" = false -> match_api path = false.
Proof. trivial. Qed.

Lemma not_health_path (path : string) :
  Js.toLowerCase path <> "/health" -> Js.toLowerCase path <> "/health/" ->
  match_health path = false.
Proof.
  intros H1 H2. unfold match_health.
  apply String.eqb_neq in H1, H2. now rewrite H1, H2.
Qed.

(** C10, as amended.  A request whose path is none of [/health] and
    [/health/] in any letter case, is not [/], and does not begin with
    [/api/] in any letter case is answered 404 "Not Found" / "Invalid
    endpoint. API routes should start with /api/"; a request to [/] is
    answered 200 with the name, the version and the endpoint groups.  In
    both cases the run makes no call. *)
Theorem unrouted_paths (w : World) (req : Request) :
  (Js.toLowerCase (req_path req) <> "/health" ->
   Js.toLowerCase (req_path req) <> "/health/" ->
   req_path req <> "/" ->
   Js.startsWith (Js.toLowerCase (req_path req)) "/api/" = false ->
   run w (app cfg qs_parse req) =
   ({| res_status := 404;
       res_headers := [];
       res_body :=
         Json (JObj [("error", JStr "Not Found");
                     ("message",
                      JStr "Invalid endpoint. API routes should start with /api/")]) |},
    [])) /\
  (req_path req = "/" ->
   run w (app cfg qs_parse req) =
   ({| res_status := 200;
       res_headers := [];
       res_body :=
         Json (JObj [("name", JStr "Supabase Auth Proxy");
                     ("version", JStr "1.0.0");
                     ("endpoints", JObj [("health", JStr "/health");
                                         ("api", JStr "/api/*")])]) |},
    [])).
Proof.
  split.
  - intros H1 H2 H3 H4. unfold app, catch_all.
    rewrite (not_health_path _ H1 H2), andb_false_r, (not_api_path _ H4).
    apply String.eqb_neq in H3. now rewrite H3.
  - intros H. unfold app, catch_all. rewrite H.
    now rewrite andb_false_r.
Qed.

End OpenRoutes.

(** C9, counterexample.  [POST /health] has the path [/health] and is
    answered 404: the health route is registered with [app.get]. *)
Lemma post_health_is_not_found :
  req_path (Sample.request "POST" "/health" []) = "/health" /\
  run (Sample.world (Sample.answers 200 [] JNull))
      (app Sample.cfg Sample.qs_parse (Sample.request "POST" "/health" []))
  = (json_error 404 "Not Found"
                "Invalid endpoint. API routes should start with /api/", []).
Proof. split; reflexivity. Qed.

(** C10, counterexample.  The path [/health/] is not [/health], is not the
    root and is not under [/api/], yet [GET /health/] is answered 200 by
    the health route, which accepts a trailing slash.  Likewise [/API/users]
    is none of the three, yet the forwarding route takes it: without a
    token it is answered 401. *)
Lemma health_with_trailing_slash_is_served :
  (req_path (Sample.request "GET" "/health/" []) <> "/health" /\
   req_path (Sample.request "GET" "/health/" []) <> "/" /\
   Js.startsWith (req_path (Sample.request "GET" "/health/" [])) "/api/" = false /\
   res_status (fst (run (Sample.world (Sample.answers 200 [] JNull))
                        (app Sample.cfg Sample.qs_parse
                             (Sample.request "GET" "/health/" [])))) = 200%Z) /\
  (req_path (Sample.request "GET" "/API/users" []) <> "/health" /\
   req_path (Sample.request "GET" "/API/users" []) <> "/" /\
   Js.startsWith (req_path (Sample.request "GET" "/API/users" [])) "/api/" = false /\
   res_status (fst (run (Sample.world (Sample.answers 200 [] JNull))
                        (app Sample.cfg Sample.qs_parse
                             (Sample.request "GET" "/API/users" [])))) = 401%Z).
Proof.
  repeat split; try reflexivity; intros E; discriminate E.
Qed.

(* ================================================================== *)
(** ** Identity headers against caller headers *)
(* ================================================================== *)

(** C1, at a valid token whose caller also sends [x-user-id: admin] and
    [x-user-email: root@b.com].  The token resolves to the user [u1],
    [a@b.com]; the downstream request carries no [Authorization], but for
    [X-User-Id] and [X-User-Email] it carries the caller's values, not the
    resolved identity's. *)
Theorem identity_headers_can_be_overridden :
  authenticated (Sample.world (Sample.answers 200 [] Sample.alice_data))
                Sample.spoofing "good-token" Sample.alice /\
  snd (run (Sample.world (Sample.answers 200 [] Sample.alice_data))
           (app Sample.cfg Sample.qs_parse Sample.spoofing))
  = [CallIdentityProvider "good-token";
     CallInternalApi (Sample.spoofed_config)] /\
  header_on_wire "Authorization" (ax_headers Sample.spoofed_config) = None /\
  header_on_wire "X-User-Id" (ax_headers Sample.spoofed_config) = Some "admin" /\
  header_on_wire "X-User-Email" (ax_headers Sample.spoofed_config)
  = Some "root@b.com" /\
  user_id Sample.alice = "u1" /\ user_email Sample.alice = "a@b.com".
Proof. repeat split. Qed.

(* ================================================================== *)
(** ** The theorems at concrete requests *)
(* ================================================================== *)

Lemma spoofing_headers_are_a_mapping :
  header_mapping (req_headers Sample.spoofing).
Proof.
  repeat constructor; simpl; intuition discriminate.
Qed.

Lemma caller_headers_take_precedence_witness :
  In ("x-user-id", "admin") (req_headers Sample.spoofing) /\
  header_on_wire "x-user-id" (ax_headers Sample.spoofed_config) = Some "admin".
Proof.
  split; [simpl; tauto|].
  apply (caller_headers_take_precedence Sample.cfg Sample.qs_parse
           Sample.spoofing Sample.alice "x-user-id" "admin").
  - exact spoofing_headers_are_a_mapping.
  - simpl; tauto.
  - simpl; tauto.
Defined.

Lemma missing_or_malformed_authorization_witness :
  run (Sample.world (Sample.fails None))
      (app Sample.cfg Sample.qs_parse (Sample.request "GET" "/api/users" []))
  = (json_error 401 "Unauthorized"
       "Missing or invalid Authorization header. Expected: Bearer <token>", []) /\
  run (Sample.world (Sample.fails None))
      (app Sample.cfg Sample.qs_parse
           (Sample.request "GET" "/api/users" [("authorization", "bearer good-token")]))
  = (json_error 401 "Unauthorized"
       "Missing or invalid Authorization header. Expected: Bearer <token>", []).
Proof.
  split.
  - apply missing_or_malformed_authorization_is_401; [reflexivity|].
    left. reflexivity.
  - apply missing_or_malformed_authorization_is_401; [reflexivity|].
    right. exists "bearer good-token". split; reflexivity.
Defined.

Lemma bearer_credential_witness :
  (exists t k, "Bearer good-token" = "Bearer " ++ t /\
     verifyAuth Sample.users (proxy Sample.cfg Sample.qs_parse Sample.users)
     = GetUser t k) /\
  (exists k,
     verifyAuth (Sample.request "GET" "/api/users" [("authorization", "Bearer ")])
                (proxy Sample.cfg Sample.qs_parse Sample.users)
     = GetUser "" k) /\
  verifyAuth (Sample.request "GET" "/api/users" [("authorization", "Bearer")])
             (proxy Sample.cfg Sample.qs_parse Sample.users)
  = Ret (json_error 401 "Unauthorized"
           "Missing or invalid Authorization header. Expected: Bearer <token>") /\
  verifyAuth (Sample.request "GET" "/api/users"
                             [("authorization", "bearer good-token")])
             (proxy Sample.cfg Sample.qs_parse Sample.users)
  = Ret (json_error 401 "Unauthorized"
           "Missing or invalid Authorization header. Expected: Bearer <token>").
Proof.
  split; [|split; [|split]].
  - destruct (bearer_credential_is_the_remainder
                Sample.users (proxy Sample.cfg Sample.qs_parse Sample.users))
      as [H _].
    apply (H "Bearer good-token"); reflexivity.
  - destruct (bearer_credential_is_the_remainder
                (Sample.request "GET" "/api/users" [("authorization", "Bearer ")])
                (proxy Sample.cfg Sample.qs_parse Sample.users))
      as [_ [H _]].
    apply H; reflexivity.
  - destruct (bearer_credential_is_the_remainder
                (Sample.request "GET" "/api/users" [("authorization", "Bearer")])
                (proxy Sample.cfg Sample.qs_parse Sample.users))
      as [_ [_ H]].
    apply (H "Bearer"); reflexivity.
  - destruct (bearer_credential_is_the_remainder
                (Sample.request "GET" "/api/users"
                                [("authorization", "bearer good-token")])
                (proxy Sample.cfg Sample.qs_parse Sample.users))
      as [_ [_ H]].
    apply (H "bearer good-token"); reflexivity.
Defined.

Lemma resolver_outcome_mapping_witness :
  run (Sample.world (Sample.fails None))
      (app Sample.cfg Sample.qs_parse Sample.expired)
  = (json_error 401 "Unauthorized" "Invalid or expired token",
     [CallIdentityProvider "expired-token"]) /\
  run (Sample.world_of Sample.knows_nobody (Sample.fails None))
      (app Sample.cfg Sample.qs_parse Sample.users)
  = (json_error 401 "Unauthorized" "User not found",
     [CallIdentityProvider "good-token"]) /\
  run (Sample.world_of Sample.is_down (Sample.fails None))
      (app Sample.cfg Sample.qs_parse Sample.users)
  = (json_error 500 "Authentication failed" "Internal authentication error",
     [CallIdentityProvider "good-token"]) /\
  run (Sample.world (fun _ => AxiosFulfilled Sample.teapot))
      (app Sample.cfg Sample.qs_parse Sample.users)
  = (relay Sample.teapot,
     [CallIdentityProvider "good-token";
      CallInternalApi (proxy_config Sample.cfg Sample.qs_parse
                                    Sample.users Sample.alice)]).
Proof.
  split; [|split; [|split]].
  - destruct (resolver_outcome_mapping Sample.cfg Sample.qs_parse
                (Sample.world (Sample.fails None)) Sample.expired "expired-token"
                eq_refl eq_refl) as [H _].
    exact (H _ _ eq_refl).
  - destruct (resolver_outcome_mapping Sample.cfg Sample.qs_parse
                (Sample.world_of Sample.knows_nobody (Sample.fails None))
                Sample.users "good-token" eq_refl eq_refl) as [_ [H _]].
    exact (H eq_refl).
  - destruct (resolver_outcome_mapping Sample.cfg Sample.qs_parse
                (Sample.world_of Sample.is_down (Sample.fails None))
                Sample.users "good-token" eq_refl eq_refl) as [_ [_ [H _]]].
    exact (H _ eq_refl).
  - destruct (resolver_outcome_mapping Sample.cfg Sample.qs_parse
                (Sample.world (fun _ => AxiosFulfilled Sample.teapot))
                Sample.users "good-token" eq_refl eq_refl) as [_ [_ [_ H]]].
    exact (H Sample.alice eq_refl).
Defined.

Lemma users_request_is_authenticated (api : AxiosConfig -> AxiosOutcome) :
  authenticated (Sample.world api) Sample.users "good-token" Sample.alice.
Proof. repeat split. Qed.

Lemma transport_failure_mapping_witness :
  run (Sample.world (fun _ => AxiosRejected Sample.unreachable))
      (app Sample.cfg Sample.qs_parse Sample.users)
  = (json_error 503 "Service Unavailable" "Internal API is not reachable",
     [CallIdentityProvider "good-token";
      CallInternalApi (proxy_config Sample.cfg Sample.qs_parse
                                    Sample.users Sample.alice)]).
Proof.
  destruct (transport_failure_mapping Sample.cfg Sample.qs_parse
              (Sample.world (fun _ => AxiosRejected Sample.unreachable))
              Sample.users "good-token" Sample.alice Sample.unreachable
              (users_request_is_authenticated _) eq_refl)
    as [r [Hrun [H503 _]]].
  rewrite Hrun, (H503 eq_refl). reflexivity.
Defined.

Lemma users_request_is_served (service : AxiosConfig -> ServiceOutcome) :
  authenticated (Sample.world_over service) Sample.users "good-token" Sample.alice
  /\ served Sample.to_location service (Sample.world_over service).
Proof. repeat split. Qed.

Lemma relay_of_downstream_response_witness :
  (exists r : Response,
     run (Sample.world_over (Sample.always Sample.teapot))
         (app Sample.cfg Sample.qs_parse Sample.users)
     = (r, [CallIdentityProvider "good-token";
            CallInternalApi (proxy_config Sample.cfg Sample.qs_parse
                                          Sample.users Sample.alice)]) /\
     res_status r = 418%Z /\
     getHeader "X-Trace" r = Some "7" /\
     entity (res_body r) = Some (JSON.stringify (JObj [("name", JStr "alice")])))
  /\
  (exists r : Response,
     run (Sample.world_over (Sample.always Sample.moved))
         (app Sample.cfg Sample.qs_parse Sample.users)
     = (r, [CallIdentityProvider "good-token";
            CallInternalApi (proxy_config Sample.cfg Sample.qs_parse
                                          Sample.users Sample.alice)]) /\
     res_status r = 302%Z /\
     getHeader "Location" r = Some "http://api.internal:8080/login" /\
     entity (res_body r) = Some "Found").
Proof.
  split.
  - destruct (relay_of_downstream_response Sample.cfg Sample.qs_parse
                Sample.to_location (Sample.always Sample.teapot)
                (Sample.world_over (Sample.always Sample.teapot))
                Sample.users "good-token" Sample.alice Sample.teapot
                (proj1 (users_request_is_served _))
                (proj2 (users_request_is_served _))
                eq_refl eq_refl (conj (Zle_bool_imp_le 100 418 eq_refl)
                                      (Zle_bool_imp_le 418 999 eq_refl))
                eq_refl)
      as [r [Hrun [Hstatus [Hheaders [_ [_ Hjson]]]]]].
    exists r. split; [exact Hrun|]. split; [exact Hstatus|].
    split; [exact (Hheaders "X-Trace") | exact (Hjson eq_refl eq_refl)].
  - destruct (relay_of_downstream_response Sample.cfg Sample.qs_parse
                Sample.to_location (Sample.always Sample.moved)
                (Sample.world_over (Sample.always Sample.moved))
                Sample.users "good-token" Sample.alice Sample.moved
                (proj1 (users_request_is_served _))
                (proj2 (users_request_is_served _))
                eq_refl eq_refl (conj (Zle_bool_imp_le 100 302 eq_refl)
                                      (Zle_bool_imp_le 302 999 eq_refl))
                eq_refl)
      as [r [Hrun [Hstatus [Hheaders [_ [Htext _]]]]]].
    exists r. split; [exact Hrun|]. split; [exact Hstatus|].
    split; [exact (Hheaders "Location") | exact (Htext "Found" eq_refl)].
Defined.

Lemma health_is_served_witness :
  run (Sample.world (Sample.fails None))
      (app Sample.cfg Sample.qs_parse
           (Sample.request "GET" "/health" [("authorization", "not a bearer token")]))
  = ({| res_status := 200;
        res_headers := [];
        res_body := Json (JObj [("status", JStr "ok");
                                ("timestamp", JStr "2024-01-01T00:00:00.000Z");
                                ("supabase", JStr "http://supabase.internal:8000");
                                ("internalApi", JStr "http://api.internal:8080")]) |},
     [CallClock]).
Proof.
  apply (health_is_served_without_authentication Sample.cfg Sample.qs_parse
           (Sample.world (Sample.fails None))
           (Sample.request "GET" "/health" [("authorization", "not a bearer token")])).
  - left. reflexivity.
  - reflexivity.
Defined.

Lemma unrouted_paths_witness :
  run (Sample.world (Sample.fails None))
      (app Sample.cfg Sample.qs_parse (Sample.request "GET" "/nope" []))
  = (json_error 404 "Not Found"
       "Invalid endpoint. API routes should start with /api/", []) /\
  res_status (fst (run (Sample.world (Sample.fails None))
                       (app Sample.cfg Sample.qs_parse
                            (Sample.request "POST" "/" [])))) = 200%Z.
Proof.
  split.
  - destruct (unrouted_paths Sample.cfg Sample.qs_parse
                (Sample.world (Sample.fails None))
                (Sample.request "GET" "/nope" [])) as [H _].
    apply H; try reflexivity; intros E; discriminate E.
  - destruct (unrouted_paths Sample.cfg Sample.qs_parse
                (Sample.world (Sample.fails None))
                (Sample.request "POST" "/" [])) as [_ H].
    rewrite (H eq_refl). reflexivity.
Defined.

(* ================================================================== *)
(** ** Every run of the router *)
(* ================================================================== *)

(** A value that passes the check of [verifyAuth] is [Bearer ] followed by
    the token taken from it. *)
Lemma checked_header (authHeader : string) :
  negb (Js.truthy authHeader) || negb (Js.startsWith authHeader "Bearer ") = false ->
  authHeader = "Bearer " ++ Js.replace "Bearer " "" authHeader.
Proof.
  intros H. apply orb_false_iff in H. destruct H as [_ H].
  apply negb_false_iff in H. unfold Js.startsWith in H.
  rewrite (replace_at_start _ _ _ H). exact (prefix_split _ _ H).
Qed.

Section Runs.

Variable cfg : Config.
Variable qs_parse : string -> JSValue.

(** The four ways a run can go: the health route; an answer without any
    call; an answer after the identity provider refused; the forwarder
    after it resolved a user. *)
Lemma run_app_cases (w : World) (req : Request) :
  (route_get (req_method req) = true /\ match_health (req_path req) = true /\
   run w (app cfg qs_parse req) = (fst (run w (health cfg req)), [CallClock]))
  \/
  (exists r, run w (app cfg qs_parse req) = (r, []) /\
             (r = missing_header \/ r = not_found \/ r = self_description))
  \/
  (exists t r,
      match_api (req_path req) = true /\
      Js.get "authorization" (req_headers req) = Some ("Bearer " ++ t) /\
      run w (app cfg qs_parse req) = (r, [CallIdentityProvider t]) /\
      (r = invalid_token \/ r = user_not_found \/ r = auth_failed))
  \/
  (exists t u,
      match_api (req_path req) = true /\
      Js.get "authorization" (req_headers req) = Some ("Bearer " ++ t) /\
      identity_provider w t = GetUserResolved (Some u) None /\
      run w (app cfg qs_parse req) =
      (match internal_api w (proxy_config cfg qs_parse req u) with
       | AxiosFulfilled response => relayed response
       | AxiosRejected error => proxy_error error
       end,
       [CallIdentityProvider t;
        CallInternalApi (proxy_config cfg qs_parse req u)])).
Proof.
  unfold app.
  destruct (route_get (req_method req) && match_health (req_path req)) eqn:Hhealth.
  { apply andb_true_iff in Hhealth. left. repeat split; tauto. }
  destruct (match_api (req_path req)) eqn:Ha.
  2: { right; left. unfold catch_all.
       destruct (negb (req_path req =? "/")); eexists; (split; [reflexivity | tauto]). }
  unfold verifyAuth.
  destruct (Js.get "authorization" (req_headers req)) as [a|] eqn:Hget.
  2: { right; left. eexists; (split; [reflexivity | tauto]). }
  destruct (negb (Js.truthy a) || negb (Js.startsWith a "Bearer ")) eqn:Hc.
  { right; left. eexists; (split; [reflexivity | tauto]). }
  pose proof (checked_header a Hc) as Ea.
  set (t := Js.replace "Bearer " "" a) in *.
  cbn [run].
  destruct (identity_provider w t) as [user error | e] eqn:Hidp.
  - destruct error as [e|].
    + right; right; left. exists t, invalid_token.
      repeat split; [congruence | tauto].
    + destruct user as [u|].
      * right; right; right. exists t, u.
        repeat split; try congruence.
        unfold proxy. cbn [run]. now destruct (internal_api w _).
      * right; right; left. exists t, user_not_found.
        repeat split; [congruence | tauto].
  - right; right; left. exists t, auth_failed.
    repeat split; [congruence | tauto].
Qed.

Lemma proxy_error_shape (e : JsError) :
  exists members,
    res_body (proxy_error e) = Json (JObj members) /\
    res_headers (proxy_error e) = [] /\
    In (res_status (proxy_error e)) [500; 503; 504]%Z.
Proof.
  unfold proxy_error.
  destruct (err_code e) as [code|];
    [destruct (code =? "ECONNREFUSED"); [|destruct (code =? "ETIMEDOUT")]|];
    eexists; simpl; repeat split; tauto.
Qed.

(** X1.  The internal API is called only for a request that the
    forwarding route takes and whose bearer token the identity provider has
    just resolved to a user without error; the call is the one built for
    that user, and it is the last of exactly two calls. *)
Theorem internal_api_only_after_authentication
        (w : World) (req : Request) (c : AxiosConfig) :
  In (CallInternalApi c) (snd (run w (app cfg qs_parse req))) ->
  exists t u,
    match_api (req_path req) = true /\
    Js.get "authorization" (req_headers req) = Some ("Bearer " ++ t) /\
    identity_provider w t = GetUserResolved (Some u) None /\
    c = proxy_config cfg qs_parse req u /\
    snd (run w (app cfg qs_parse req)) =
    [CallIdentityProvider t; CallInternalApi c].
Proof.
  intros Hin.
  destruct (run_app_cases w req)
    as [[_ [_ E]] | [[r [E _]] | [[t [r [_ [_ [E _]]]]] | [t [u [Ha [Hget [Hidp E]]]]]]]];
    rewrite E in Hin; simpl in Hin.
  - destruct Hin as [H|[]]; discriminate H.
  - destruct Hin.
  - destruct Hin as [H|[]]; discriminate H.
  - destruct Hin as [H|[H|[]]]; [discriminate H|].
    inversion H as [Hc]. exists t, u.
    rewrite E. simpl. repeat split; auto.
Qed.

(** X2.  No run calls the identity provider more than once or the
    internal API more than once: nothing is retried. *)
Theorem one_attempt_per_request (w : World) (req : Request) :
  (length (filter is_identity_provider_call
                  (snd (run w (app cfg qs_parse req)))) <= 1)%nat /\
  (length (filter is_internal_api_call
                  (snd (run w (app cfg qs_parse req)))) <= 1)%nat.
Proof.
  destruct (run_app_cases w req)
    as [[_ [_ E]] | [[r [E _]] | [[t [r [_ [_ [E _]]]]] | [t [u [_ [_ [_ E]]]]]]]];
    rewrite E; simpl; lia.
Qed.

(** The errors thrown while relaying have none of the two codes the
    [catch] branch knows: the answer is the 500. *)
Lemma set_headers_error (l hs hs' : Js.obj string) (e : JsError) :
  set_headers l hs = (hs', Some e) ->
  proxy_error e = json_error 500 "Internal Server Error"
                             "An error occurred while proxying the request".
Proof.
  revert hs. induction l as [|[k v] r IH]; intros hs H; simpl in H.
  - discriminate H.
  - unfold setHeader_throws in H.
    destruct (negb (is_token k)); [now inversion H|].
    destruct (negb (field_content v)); [now inversion H|].
    exact (IH _ H).
Qed.

Lemma relay_throws_error (response : AxiosResponse) (hs : Js.obj string)
      (e : JsError) :
  relay_throws response = Some (hs, e) ->
  proxy_error e = json_error 500 "Internal Server Error"
                             "An error occurred while proxying the request".
Proof.
  unfold relay_throws.
  destruct (set_headers _ _) as [hs' [e'|]] eqn:Hset.
  - intros H. inversion H; subst. exact (set_headers_error _ _ _ _ Hset).
  - destruct (writable_status _); [discriminate|].
    intros H. now inversion H.
Qed.

(** X3.  Every answer is either the relay of a response the internal API
    gave to this run, or a JSON object sent with [res.json], with status
    200, 401, 404, 500, 503 or 504.  The JSON answers have no headers set by
    the handler, but for the 500 that follows a relay that threw: it keeps
    the downstream headers set before the throw. *)
Theorem answers_are_relayed_or_json (w : World) (req : Request) :
  (exists c response,
      In (CallInternalApi c) (snd (run w (app cfg qs_parse req))) /\
      internal_api w c = AxiosFulfilled response /\
      relay_throws response = None /\
      fst (run w (app cfg qs_parse req)) = relay response)
  \/
  (exists members,
      res_body (fst (run w (app cfg qs_parse req))) = Json (JObj members) /\
      In (res_status (fst (run w (app cfg qs_parse req))))
         [200; 401; 404; 500; 503; 504]%Z /\
      (res_headers (fst (run w (app cfg qs_parse req))) = [] \/
       exists c response hs error,
         In (CallInternalApi c) (snd (run w (app cfg qs_parse req))) /\
         internal_api w c = AxiosFulfilled response /\
         relay_throws response = Some (hs, error) /\
         res_headers (fst (run w (app cfg qs_parse req))) = hs /\
         res_status (fst (run w (app cfg qs_parse req))) = 500%Z)).
Proof.
  destruct (run_app_cases w req)
    as [[_ [_ E]] | [[r [E Hr]] | [[t [r [_ [_ [E Hr]]]]] | [t [u [_ [_ [_ E]]]]]]]];
    rewrite E; simpl.
  - right. eexists. repeat split; simpl; tauto.
  - right. destruct Hr as [-> | [-> | ->]];
      eexists; repeat split; simpl; tauto.
  - right. destruct Hr as [-> | [-> | ->]];
      eexists; repeat split; simpl; tauto.
  - destruct (internal_api w (proxy_config cfg qs_parse req u))
      as [response | e] eqn:Hapi.
    + unfold relayed.
      destruct (relay_throws response) as [[hs error]|] eqn:Hthrows.
      * right. unfold relay_failed.
        rewrite (relay_throws_error _ _ _ Hthrows). simpl.
        eexists. split; [reflexivity|]. split; [tauto|].
        right. exists (proxy_config cfg qs_parse req u), response, hs, error.
        repeat split; auto.
      * left. exists (proxy_config cfg qs_parse req u), response.
        repeat split; auto.
    + right. destruct (proxy_error_shape e) as [members [Hb [Hh Hs]]].
      exists members. split; [exact Hb|]. split; [|now left].
      simpl in Hs. simpl. tauto.
Qed.

End Runs.

(* ================================================================== *)
(** ** What the downstream request carries *)
(* ================================================================== *)

Lemma includes_In (l : list string) (x : string) :
  Js.includes l x = true <-> In x l.
Proof.
  unfold Js.includes. rewrite existsb_exists. split.
  - intros [y [Hy E]]. apply String.eqb_eq in E. now subst.
  - intros H. exists x. split; [assumption | apply String.eqb_refl].
Qed.

Section ForwardedHeaders.

Variable cfg : Config.
Variable qs_parse : string -> JSValue.

(** A field the caller does not send is carried as the proxy wrote it. *)
Lemma injected_header_kept (req : Request) (user : User) (name : string) :
  Forall (fun k => Js.toLowerCase k <> Js.toLowerCase name)
         (Js.keys (req_headers req)) ->
  header_on_wire name (proxy_headers cfg req user) =
  header_on_wire name (injected_headers cfg user).
Proof.
  intros H. unfold proxy_headers, Js.fromEntries, Js.entries.
  apply header_on_wire_spread_other.
  apply keys_spread; [constructor|]. now apply keys_filter_incl.
Qed.

(** X4.  Whatever the incoming headers are, the [headers] object handed
    to axios has no [authorization], [host] or [content-length] entry, in
    any letter case of the name: the caller's values of these three fields
    are never passed on.  (The Host and the Content-Length of the
    downstream request are those axios and Node compute for it.) *)
Theorem blocklisted_headers_are_dropped (req : Request) (user : User) :
  Forall (fun k => ~ In (Js.toLowerCase k)
                        ["authorization"; "host"; "content-length"])
         (Js.keys (ax_headers (proxy_config cfg qs_parse req user))).
Proof.
  simpl ax_headers.
  eapply Forall_impl; [|apply proxy_keys_forwarded].
  intros k Hk Hin. unfold forwarded in Hk.
  apply negb_true_iff in Hk.
  assert (E : Js.includes blocklist (Js.toLowerCase k) = true);
    [|congruence].
  simpl in Hin.
  destruct Hin as [<- | [<- | [<- | []]]]; reflexivity.
Qed.

(** X5.  Every other header of the caller is forwarded with its value:
    for a header mapping, an entry whose lower-case name is not on the
    blocklist is what the downstream request carries for that field. *)
Theorem other_headers_are_forwarded
        (req : Request) (user : User) (k v : string) :
  header_mapping (req_headers req) ->
  In (k, v) (req_headers req) ->
  Js.toLowerCase k = k ->
  ~ In k blocklist ->
  header_on_wire k (ax_headers (proxy_config cfg qs_parse req user)) = Some v.
Proof.
  intros Hmap Hin Hlow Hk. simpl.
  apply forwarded_header_on_wire; try assumption.
  unfold forwarded. rewrite Hlow.
  destruct (Js.includes blocklist k) eqn:E; [|reflexivity].
  apply includes_In in E. contradiction.
Qed.

(** X6.  When the caller sends none of [content-type], [x-internal-key],
    [x-user-id] and [x-user-email], the downstream request carries
    [Content-Type: application/json], the id and the email of the resolved
    user, and [X-Internal-Key] with the configured secret exactly when the
    secret is not empty. *)
Theorem headers_the_proxy_adds (req : Request) (user : User) :
  Forall (fun k => ~ In (Js.toLowerCase k)
                        ["content-type"; "x-internal-key";
                         "x-user-id"; "x-user-email"])
         (Js.keys (req_headers req)) ->
  header_on_wire "Content-Type" (ax_headers (proxy_config cfg qs_parse req user))
  = Some "application/json" /\
  header_on_wire "X-User-Id" (ax_headers (proxy_config cfg qs_parse req user))
  = Some (user_id user) /\
  header_on_wire "X-User-Email" (ax_headers (proxy_config cfg qs_parse req user))
  = Some (user_email user) /\
  header_on_wire "X-Internal-Key" (ax_headers (proxy_config cfg qs_parse req user))
  = (if INTERNAL_API_KEY cfg =? "" then None else Some (INTERNAL_API_KEY cfg)).
Proof.
  intros H. simpl ax_headers.
  assert (Hk : forall name,
             In (Js.toLowerCase name)
                ["content-type"; "x-internal-key"; "x-user-id"; "x-user-email"] ->
             header_on_wire name (proxy_headers cfg req user) =
             header_on_wire name (injected_headers cfg user)).
  { intros name Hname. apply injected_header_kept.
    eapply Forall_impl; [|exact H]. simpl. intros k Hk E.
    apply Hk. rewrite E. exact Hname. }
  rewrite !Hk by (simpl; tauto).
  rewrite injected_headers_entries. unfold Js.truthy.
  destruct (INTERNAL_API_KEY cfg =? ""); repeat split.
Qed.

End ForwardedHeaders.

(* ================================================================== *)
(** ** Paths, query strings and the downstream URL *)
(* ================================================================== *)

Lemma lower_ascii_slash (c : ascii) :
  Js.lower_ascii c = "/"%char -> c = "/"%char.
Proof.
  destruct c as [[] [] [] [] [] [] [] []]; intros H;
    try discriminate H; reflexivity.
Qed.

Lemma pathname_no_query (u : string) :
  has_question_mark u = false -> pathname u = u.
Proof.
  induction u as [|c r IH]; simpl; [reflexivity|].
  intros H. apply orb_false_iff in H. destruct H as [Hc Hr].
  rewrite Hc. now rewrite (IH Hr).
Qed.

Lemma pathname_with_query (u q : string) :
  has_question_mark u = false -> pathname (u ++ "?" ++ q) = u.
Proof.
  induction u as [|c r IH]; intros H; simpl in *; [reflexivity|].
  apply orb_false_iff in H. destruct H as [Hc Hr].
  rewrite Hc. now rewrite (IH Hr).
Qed.

(** A target the forwarding route takes begins with [/api/] as soon as it
    begins with [/api]. *)
Lemma routed_api_prefix (url : string) :
  match_api (pathname url) = true ->
  prefix "/api" url = true -> prefix "/api/" url = true.
Proof.
  unfold match_api, Js.startsWith. intros Hroute Hpre.
  rewrite (prefix_split _ _ Hpre) in *.
  set (r := Js.slice (String.length "/api") url) in *. clearbody r.
  apply prefix_split in Hroute. simpl in Hroute.
  injection Hroute as Hr.
  destruct r as [|c r']; simpl in Hr; [discriminate Hr|].
  destruct (nat_of_ascii c =? 63)%nat; simpl in Hr; [discriminate Hr|].
  injection Hr as Hc. apply lower_ascii_slash in Hc. subst c.
  exact (prefix_app "/api/" r').
Qed.

Section DownstreamTarget.

Variable cfg : Config.
Variable qs_parse : string -> JSValue.

(** X7.  For a request the forwarding route takes, the URL handed to
    axios is the base, one slash, and what follows [/api/] in the request
    target, taken over unchanged (sub-path, doubled slashes and query string
    included); when the target spells the prefix in another letter case,
    nothing is removed and the whole target follows the slash. *)
Theorem downstream_url_of_routed_request (req : Request) (user : User) :
  match_api (req_path req) = true ->
  (forall rest, req_url req = "/api/" ++ rest ->
     ax_url (proxy_config cfg qs_parse req user)
     = INTERNAL_API_URL cfg ++ "/" ++ rest) /\
  (Js.startsWith (req_url req) "/api/" = false ->
     ax_url (proxy_config cfg qs_parse req user)
     = INTERNAL_API_URL cfg ++ "/" ++ req_url req).
Proof.
  intros Hroute. split.
  - intros rest H. simpl. now apply internalUrl_of_api_url.
  - unfold Js.startsWith. intros Hno. simpl. unfold internalUrl, strip_api.
    rewrite Hno.
    destruct (prefix "/api" (req_url req)) eqn:Hpre; [|reflexivity].
    rewrite (routed_api_prefix _ Hroute Hpre) in Hno. discriminate Hno.
Qed.

(** X8.  Off the forwarding prefix the query string plays no part: a
    request that the forwarding route does not take is run the same with
    any query string added to its target. *)
Theorem query_is_ignored_off_the_forwarding_prefix
        (w : World) (req : Request) (q : string) :
  has_question_mark (req_url req) = false ->
  match_api (req_path req) = false ->
  run w (app cfg qs_parse (with_query q req)) = run w (app cfg qs_parse req).
Proof.
  intros Hq Hapi.
  assert (Hpath : req_path (with_query q req) = req_path req).
  { unfold req_path, with_query. cbn [req_url].
    now rewrite (pathname_with_query _ q Hq), (pathname_no_query _ Hq). }
  unfold app, catch_all. rewrite Hpath, Hapi. reflexivity.
Qed.

End DownstreamTarget.

(* ================================================================== *)
(** ** The log, and where the token goes *)
(* ================================================================== *)

Lemma run_map {A B} (f : A -> B) (w : World) (p : Prog A) :
  run w (Prog_map f p) = (f (fst (run w p)), snd (run w p)).
Proof.
  induction p as [a | k IH | token k IH | config k IH]; cbn [Prog_map run].
  - reflexivity.
  - rewrite IH. now destruct (run w (k (clock w))).
  - rewrite IH. now destruct (run w (k (identity_provider w token))).
  - rewrite IH. now destruct (run w (k (internal_api w config))).
Qed.

Lemma filter_set_dropped {V} (p : string -> bool) (k : string) (v : V)
      (hs : Js.obj V) :
  p k = false ->
  filter (fun kv => p (fst kv)) (Js.set k v hs) = filter (fun kv => p (fst kv)) hs.
Proof.
  intros Hk. induction hs as [|[k0 v0] r IH]; simpl.
  - now rewrite Hk.
  - destruct (String.eqb_spec k0 k) as [->|_]; simpl.
    + now rewrite Hk.
    + now rewrite IH.
Qed.

Section Tokens.

Variable cfg : Config.
Variable qs_parse : string -> JSValue.

(** The axios call does not depend on the [authorization] header. *)
Lemma proxy_config_with_token (req : Request) (u : User) (t : string) :
  proxy_config cfg qs_parse (with_token t req) u = proxy_config cfg qs_parse req u.
Proof.
  unfold proxy_config, proxy_headers, Js.entries, with_token; simpl.
  now rewrite (filter_set_dropped forwarded "authorization").
Qed.

(** The lines are written beside the run of [app]: the answer and the
    calls are those of [app]. *)
Lemma app_logged_erasure (w : World) (req : Request) :
  fst (fst (run w (app_logged cfg qs_parse req))) = fst (run w (app cfg qs_parse req)) /\
  snd (run w (app_logged cfg qs_parse req)) = snd (run w (app cfg qs_parse req)).
Proof.
  unfold app_logged, app.
  destruct (route_get (req_method req) && match_health (req_path req)).
  { now rewrite run_map. }
  destruct (match_api (req_path req)); [|now rewrite run_map].
  unfold verifyAuth_logged, verifyAuth.
  destruct (Js.get "authorization" (req_headers req)) as [a|]; [|now split].
  destruct (negb (Js.truthy a) || negb (Js.startsWith a "Bearer ")); [now split|].
  cbn [run].
  destruct (identity_provider w _) as [[u|] [e|] | e]; try (now split).
  unfold proxy_logged, proxy, relayed. cbn [run].
  destruct (internal_api w _) as [response|error]; [|now split].
  now destruct (relay_throws response) as [[hs error]|].
Qed.

(** X9.  The bearer token goes to the identity provider and nowhere else:
    two requests that differ only in their bearer token, the two tokens
    being answered alike by the identity provider, get the same answer,
    write the same log lines and make the same call to the internal API. *)
Theorem token_goes_to_the_identity_provider_only
        (w : World) (req : Request) (t1 t2 : string) :
  identity_provider w t1 = identity_provider w t2 ->
  fst (run w (app_logged cfg qs_parse (with_token t1 req))) =
  fst (run w (app_logged cfg qs_parse (with_token t2 req))) /\
  filter is_internal_api_call
         (snd (run w (app_logged cfg qs_parse (with_token t1 req)))) =
  filter is_internal_api_call
         (snd (run w (app_logged cfg qs_parse (with_token t2 req)))).
Proof.
  intros Hsame. unfold app_logged, req_path.
  cbn [with_token req_method req_url].
  destruct (route_get (req_method req) && match_health (pathname (req_url req))).
  { now rewrite !run_map. }
  destruct (match_api (pathname (req_url req))); [|now rewrite !run_map].
  unfold verifyAuth_logged. cbn [with_token req_headers].
  rewrite !get_set. cbn [String.eqb Ascii.eqb Bool.eqb].
  rewrite !bearer_passes, !replace_bearer.
  cbn [run]. rewrite <- Hsame.
  destruct (identity_provider w t1) as [[u|] [e|] | e]; try (now split).
  unfold proxy_logged. cbn [run].
  rewrite !proxy_config_with_token.
  unfold internalUrl. cbn [with_token req_url req_method].
  destruct (internal_api w _) as [response|error]; [|now split].
  now destruct (relay_throws response) as [[hs error]|].
Qed.

End Tokens.

(* ================================================================== *)
(** ** Start-up *)
(* ================================================================== *)

Lemma unset_false (v : option string) :
  unset v = false -> exists s, v = Some s /\ s <> "" /\ value v = s.
Proof.
  destruct v as [s|]; simpl; [|discriminate].
  unfold Js.truthy. rewrite negb_involutive. intros H.
  exists s. repeat split. intros ->. discriminate H.
Qed.

(** X10.  The process stops at start-up, always with exit code 1, exactly
    when [SUPABASE_URL], [SUPABASE_SERVICE_ROLE_KEY] or [INTERNAL_API_URL]
    is unset or empty; the error output then names each of the three that
    is unset or empty, and no other. *)
Theorem startup_fails_fast (env : Js.obj string) :
  ((exists code lines, startup env = Exit code lines) <->
   unset (Js.get "SUPABASE_URL" env) = true \/
   unset (Js.get "SUPABASE_SERVICE_ROLE_KEY" env) = true \/
   unset (Js.get "INTERNAL_API_URL" env) = true) /\
  (forall code lines, startup env = Exit code lines ->
     code = 1%Z /\
     (forall name,
         In name ["SUPABASE_URL"; "SUPABASE_SERVICE_ROLE_KEY"; "INTERNAL_API_URL"] ->
         (In ("   - " ++ name) lines <-> unset (Js.get name env) = true))).
Proof.
  unfold startup.
  destruct (unset (Js.get "SUPABASE_URL" env)) eqn:H1;
    destruct (unset (Js.get "SUPABASE_SERVICE_ROLE_KEY" env)) eqn:H2;
    destruct (unset (Js.get "INTERNAL_API_URL" env)) eqn:H3;
    cbn [orb]; (split; [split|]).
  all: try (intros _; tauto).
  all: try (intros _; eexists; eexists; reflexivity).
  all: try (intros [code [lines E]]; discriminate E).
  all: try (intros [E | [E | E]]; discriminate E).
  all: try (intros code lines E; discriminate E).
  all: intros code lines E; inversion E; subst; split; [reflexivity|];
    intros name [<- | [<- | [<- | []]]]; rewrite ?H1, ?H2, ?H3; simpl;
    split; intros H; try reflexivity; try tauto;
    try discriminate H;
    repeat (destruct H as [H | H]; try discriminate H); try destruct H.
Qed.

(** X11.  When start-up goes through, the two URLs and the service-role
    key in use are the values of the environment and are not empty; the
    shared secret is the value of [INTERNAL_API_KEY], or empty when that is
    unset; the port is the value of [PORT], or the number 3000 when that is
    unset or empty. *)
Theorem started_settings (env : Js.obj string) (s : Settings)
        (stdout : list string) :
  startup env = Running s stdout ->
  (Js.get "SUPABASE_URL" env = Some (SUPABASE_URL (config s)) /\
   SUPABASE_URL (config s) <> "") /\
  (Js.get "INTERNAL_API_URL" env = Some (INTERNAL_API_URL (config s)) /\
   INTERNAL_API_URL (config s) <> "") /\
  (Js.get "SUPABASE_SERVICE_ROLE_KEY" env = Some (SUPABASE_SERVICE_ROLE_KEY s) /\
   SUPABASE_SERVICE_ROLE_KEY s <> "") /\
  (forall k, Js.get "INTERNAL_API_KEY" env = Some k ->
             INTERNAL_API_KEY (config s) = k) /\
  (Js.get "INTERNAL_API_KEY" env = None -> INTERNAL_API_KEY (config s) = "") /\
  (forall p, Js.get "PORT" env = Some p -> p <> "" -> PORT s = PortString p) /\
  (unset (Js.get "PORT" env) = true -> PORT s = PortNumber 3000).
Proof.
  unfold startup.
  destruct (unset (Js.get "SUPABASE_URL" env)) eqn:H1; [discriminate|].
  destruct (unset (Js.get "SUPABASE_SERVICE_ROLE_KEY" env)) eqn:H2; [discriminate|].
  destruct (unset (Js.get "INTERNAL_API_URL" env)) eqn:H3; [discriminate|].
  cbn [orb]. intros E. inversion E; subst; clear E. cbn [config SUPABASE_URL
    INTERNAL_API_URL INTERNAL_API_KEY SUPABASE_SERVICE_ROLE_KEY PORT].
  destruct (unset_false _ H1) as [u [E1 [N1 V1]]].
  destruct (unset_false _ H2) as [r [E2 [N2 V2]]].
  destruct (unset_false _ H3) as [a [E3 [N3 V3]]].
  rewrite V1, V2, V3.
  repeat split; try assumption.
  - intros k ->. unfold Js.truthy.
    destruct (String.eqb_spec k ""); simpl; congruence.
  - now intros ->.
  - intros p -> Hp. unfold Js.truthy.
    destruct (String.eqb_spec p ""); simpl; congruence.
  - destruct (Js.get "PORT" env) as [p|]; simpl; [|reflexivity].
    intros H. apply negb_true_iff in H. now rewrite H.
Qed.

(** X12.  The lines written at start-up show the two URLs, whether a
    shared secret is set, and the port; they do not depend on the
    service-role key or on the value of the shared secret. *)
Theorem startup_log_hides_secrets
        (env1 env2 : Js.obj string) (s1 s2 : Settings) (out1 out2 : list string) :
  startup env1 = Running s1 out1 ->
  startup env2 = Running s2 out2 ->
  Js.get "SUPABASE_URL" env1 = Js.get "SUPABASE_URL" env2 ->
  Js.get "INTERNAL_API_URL" env1 = Js.get "INTERNAL_API_URL" env2 ->
  unset (Js.get "INTERNAL_API_KEY" env1) = unset (Js.get "INTERNAL_API_KEY" env2) ->
  Js.get "PORT" env1 = Js.get "PORT" env2 ->
  out1 = out2 /\ listening (PORT s1) = listening (PORT s2).
Proof.
  unfold startup. intros E1 E2 Hurl Hapi Hkey Hport.
  rewrite Hurl, Hapi, Hport in E1.
  destruct (unset (Js.get "SUPABASE_URL" env2)
            || unset (Js.get "SUPABASE_SERVICE_ROLE_KEY" env1)
            || unset (Js.get "INTERNAL_API_URL" env2)); [discriminate|].
  destruct (unset (Js.get "SUPABASE_URL" env2)
            || unset (Js.get "SUPABASE_SERVICE_ROLE_KEY" env2)
            || unset (Js.get "INTERNAL_API_URL" env2)); [discriminate|].
  inversion E1; inversion E2; subst; clear E1 E2.
  split; [|reflexivity].
  repeat f_equal.
  unfold unset in Hkey.
  destruct (Js.get "INTERNAL_API_KEY" env1) as [k1|],
           (Js.get "INTERNAL_API_KEY" env2) as [k2|]; simpl in *.
  - apply (f_equal negb) in Hkey. rewrite !negb_involutive in Hkey.
    rewrite Hkey.
    destruct (Js.truthy k2) eqn:T2; [|reflexivity].
    unfold Js.truthy in *. rewrite Hkey in *.
    unfold Js.truthy. now rewrite !T2.
  - destruct (Js.truthy k1); [discriminate | reflexivity].
  - destruct (Js.truthy k2); [discriminate | reflexivity].
  - reflexivity.
Qed.

(* ================================================================== *)
(** ** The role check of the setup guide *)
(* ================================================================== *)

(** [replace] leaves a string without the pattern as it is. *)
Lemma replace_absent (pat rep s : string) :
  occurs pat s = false -> Js.replace pat rep s = s.
Proof.
  induction s as [|c r IH]; cbn [occurs Js.replace]; intros H;
    apply orb_false_iff in H; destruct H as [Hp Hr]; rewrite Hp.
  - reflexivity.
  - now rewrite (IH Hr).
Qed.

Lemma truthy_nonempty (s : string) : s <> "" -> Js.truthy s = true.
Proof.
  intros H. unfold Js.truthy. apply String.eqb_neq in H. now rewrite H.
Qed.

Section RoleCheck.

Variable metadata_role : User -> option string.

(** The role the function works with. *)
Lemma role_is_admin (u : User) :
  (match metadata_role u with
   | Some role => if Js.truthy role then role else "user"
   | None => "user"
   end =? "admin") = true <-> metadata_role u = Some "admin".
Proof.
  destruct (metadata_role u) as [role|]; [|split; discriminate].
  unfold Js.truthy. destruct (String.eqb_spec role "") as [->|Hne]; simpl.
  - split; discriminate.
  - rewrite String.eqb_eq. split; congruence.
Qed.

(** X13.  In the function of the guide a user the identity provider has
    resolved is answered 403 "Admin access required", with no further
    call, when the path begins with [/api/admin] (letter case compared) and
    the role in the metadata is not [admin]; in every other case, which
    includes a path such as [/api/Admin], the request goes on to the next
    handler, with the role of the metadata, or [user] when there is
    none. *)
Theorem role_gate (w : World) (req : Request)
        (next : User -> string -> Prog (option Response)) (t : string) (u : User) :
  Js.get "authorization" (req_headers req) = Some ("Bearer " ++ t) ->
  t <> "" ->
  identity_provider w t = GetUserResolved (Some u) None ->
  (Js.startsWith (req_path req) "/api/admin" = true ->
   metadata_role u <> Some "admin" ->
   run w (verifyAuth_with_roles metadata_role req next) =
   (Some {| res_status := 403;
            res_headers := [];
            res_body := Json (JObj [("error", JStr "Admin access required")]) |},
    [CallIdentityProvider t])) /\
  (Js.startsWith (req_path req) "/api/admin" = false \/
   metadata_role u = Some "admin" ->
   exists role,
     role = match metadata_role u with
            | Some r => if r =? "" then "user" else r
            | None => "user"
            end /\
     run w (verifyAuth_with_roles metadata_role req next) =
     (fst (run w (next u role)),
      CallIdentityProvider t :: snd (run w (next u role)))).
Proof.
  intros Hget Ht Hidp. unfold verifyAuth_with_roles.
  rewrite Hget, replace_bearer, (truthy_nonempty t Ht).
  cbn [negb run]. rewrite Hidp. split.
  - intros Hpath Hrole. rewrite Hpath.
    destruct (_ =? "admin") eqn:E.
    + apply role_is_admin in E. contradiction.
    + reflexivity.
  - intros H. eexists. split; [reflexivity|].
    assert (Hgate : Js.startsWith (req_path req) "/api/admin"
                    && negb (match metadata_role u with
                             | Some role => if Js.truthy role then role else "user"
                             | None => "user"
                             end =? "admin") = false).
    { destruct H as [-> | Hadmin]; [reflexivity|].
      apply role_is_admin in Hadmin. rewrite Hadmin. apply andb_false_r. }
    rewrite Hgate.
    replace (match metadata_role u with
             | Some r => if r =? "" then "user" else r
             | None => "user"
             end)
      with (match metadata_role u with
            | Some role => if Js.truthy role then role else "user"
            | None => "user"
            end).
    + now destruct (run w (next u _)).
    + destruct (metadata_role u) as [r|]; [|reflexivity].
      unfold Js.truthy. now destruct (r =? "").
Qed.

(** X14.  The function of the guide does not ask for the [Bearer ]
    prefix: a non-empty [authorization] value in which [Bearer ] does not
    occur is handed to the identity provider whole. *)
Theorem roles_variant_takes_any_value
        (req : Request) (next : User -> string -> Prog (option Response))
        (v : string) :
  Js.get "authorization" (req_headers req) = Some v ->
  v <> "" ->
  occurs "Bearer " v = false ->
  exists k, verifyAuth_with_roles metadata_role req next = GetUser v k.
Proof.
  intros Hget Hv Hocc. unfold verifyAuth_with_roles.
  rewrite Hget, (replace_absent _ _ _ Hocc), (truthy_nonempty v Hv).
  eexists. reflexivity.
Qed.

(** X15.  The function of the guide has no [try]: when the call to the
    identity provider throws, no response is sent and nothing else is
    called, where [verifyAuth] answers 500. *)
Theorem roles_variant_leaves_a_throw_unanswered
        (w : World) (req : Request)
        (next : User -> string -> Prog (option Response))
        (t : string) (e : JsError) :
  Js.get "authorization" (req_headers req) = Some ("Bearer " ++ t) ->
  t <> "" ->
  identity_provider w t = GetUserThrew e ->
  run w (verifyAuth_with_roles metadata_role req next)
  = (None, [CallIdentityProvider t]) /\
  forall next', run w (verifyAuth req next') = (auth_failed, [CallIdentityProvider t]).
Proof.
  intros Hget Ht Hidp. split.
  - unfold verifyAuth_with_roles.
    rewrite Hget, replace_bearer, (truthy_nonempty t Ht).
    cbn [negb run]. now rewrite Hidp.
  - intros next'. rewrite (verifyAuth_bearer _ _ _ Hget).
    cbn [run]. now rewrite Hidp.
Qed.

End RoleCheck.

(* ================================================================== *)
(** ** Further theorems at concrete requests *)
(* ================================================================== *)

Lemma internal_api_only_after_authentication_witness :
  exists t u,
    match_api (req_path Sample.users) = true /\
    Js.get "authorization" (req_headers Sample.users) = Some ("Bearer " ++ t) /\
    identity_provider (Sample.world (fun _ => AxiosFulfilled Sample.teapot)) t
    = GetUserResolved (Some u) None /\
    proxy_config Sample.cfg Sample.qs_parse Sample.users Sample.alice
    = proxy_config Sample.cfg Sample.qs_parse Sample.users u /\
    snd (run (Sample.world (fun _ => AxiosFulfilled Sample.teapot))
             (app Sample.cfg Sample.qs_parse Sample.users))
    = [CallIdentityProvider t;
       CallInternalApi
         (proxy_config Sample.cfg Sample.qs_parse Sample.users Sample.alice)].
Proof.
  apply (internal_api_only_after_authentication Sample.cfg Sample.qs_parse
           (Sample.world (fun _ => AxiosFulfilled Sample.teapot)) Sample.users).
  simpl. right. left. reflexivity.
Defined.

Lemma blocklisted_headers_are_dropped_witness :
  Forall (fun k => ~ In (Js.toLowerCase k)
                        ["authorization"; "host"; "content-length"])
         (Js.keys (ax_headers (proxy_config Sample.cfg Sample.qs_parse
                                            Sample.browser Sample.alice)))
  /\ Js.keys (ax_headers (proxy_config Sample.cfg Sample.qs_parse
                                       Sample.browser Sample.alice))
     = ["Content-Type"; "X-Internal-Key"; "X-User-Id"; "X-User-Email";
        "accept"; "cookie"].
Proof.
  split; [apply blocklisted_headers_are_dropped | reflexivity].
Defined.

Lemma browser_headers_are_a_mapping :
  header_mapping (req_headers Sample.browser).
Proof.
  repeat constructor; simpl; intuition discriminate.
Qed.

Lemma other_headers_are_forwarded_witness :
  header_on_wire "cookie"
    (ax_headers (proxy_config Sample.cfg Sample.qs_parse Sample.browser Sample.alice))
  = Some "theme=dark".
Proof.
  apply other_headers_are_forwarded.
  - exact browser_headers_are_a_mapping.
  - simpl; tauto.
  - reflexivity.
  - simpl. intuition discriminate.
Defined.

Lemma headers_the_proxy_adds_witness :
  header_on_wire "X-User-Id"
    (ax_headers (proxy_config Sample.cfg Sample.qs_parse Sample.browser Sample.alice))
  = Some "u1" /\
  header_on_wire "X-Internal-Key"
    (ax_headers (proxy_config Sample.cfg Sample.qs_parse Sample.browser Sample.alice))
  = Some "s3cret".
Proof.
  destruct (headers_the_proxy_adds Sample.cfg Sample.qs_parse
              Sample.browser Sample.alice) as [_ [Hid [_ Hkey]]].
  - repeat constructor; simpl; intuition discriminate.
  - split; [exact Hid | exact Hkey].
Defined.

Lemma downstream_url_of_routed_request_witness :
  ax_url (proxy_config Sample.cfg Sample.qs_parse Sample.paged Sample.alice)
  = "http://api.internal:8080/users?page=2" /\
  ax_url (proxy_config Sample.cfg Sample.qs_parse Sample.shouting Sample.alice)
  = "http://api.internal:8080//API/users?page=2".
Proof.
  split.
  - destruct (downstream_url_of_routed_request Sample.cfg Sample.qs_parse
                Sample.paged Sample.alice eq_refl) as [H _].
    exact (H "users?page=2" eq_refl).
  - destruct (downstream_url_of_routed_request Sample.cfg Sample.qs_parse
                Sample.shouting Sample.alice eq_refl) as [_ H].
    exact (H eq_refl).
Defined.

Lemma query_is_ignored_witness :
  run (Sample.world (Sample.fails None))
      (app Sample.cfg Sample.qs_parse
           (with_query "verbose=1" (Sample.request "GET" "/health" [])))
  = run (Sample.world (Sample.fails None))
        (app Sample.cfg Sample.qs_parse (Sample.request "GET" "/health" [])).
Proof.
  apply query_is_ignored_off_the_forwarding_prefix; reflexivity.
Defined.

Lemma token_goes_to_the_identity_provider_only_witness :
  fst (run (Sample.world_of Sample.provider_of_two
                            (fun _ => AxiosFulfilled Sample.teapot))
           (app_logged Sample.cfg Sample.qs_parse
                       (with_token "good-token" Sample.browser)))
  = fst (run (Sample.world_of Sample.provider_of_two
                              (fun _ => AxiosFulfilled Sample.teapot))
             (app_logged Sample.cfg Sample.qs_parse
                         (with_token "fresh-token" Sample.browser))).
Proof.
  apply (token_goes_to_the_identity_provider_only Sample.cfg Sample.qs_parse
           (Sample.world_of Sample.provider_of_two
                            (fun _ => AxiosFulfilled Sample.teapot))
           Sample.browser "good-token" "fresh-token").
  reflexivity.
Defined.

Lemma startup_fails_fast_witness :
  exists code lines,
    startup Sample.bare_env = Exit code lines /\
    code = 1%Z /\
    In "   - SUPABASE_SERVICE_ROLE_KEY" lines /\
    In "   - INTERNAL_API_URL" lines /\
    ~ In "   - SUPABASE_URL" lines.
Proof.
  destruct (startup_fails_fast Sample.bare_env) as [[_ Hexit] Hlines].
  destruct Hexit as [code [lines E]]; [right; left; reflexivity|].
  destruct (Hlines code lines E) as [Hcode Hnames].
  exists code, lines. split; [exact E|]. split; [exact Hcode|].
  split; [|split].
  - apply (Hnames "SUPABASE_SERVICE_ROLE_KEY"); [simpl; tauto | reflexivity].
  - apply (Hnames "INTERNAL_API_URL"); [simpl; tauto | reflexivity].
  - intros H. apply (Hnames "SUPABASE_URL") in H; [discriminate H | simpl; tauto].
Defined.

Lemma started_settings_witness :
  exists s stdout,
    startup Sample.env = Running s stdout /\
    INTERNAL_API_URL (config s) = "http://api.internal:8080" /\
    INTERNAL_API_KEY (config s) = "s3cret" /\
    PORT s = PortString "8081".
Proof.
  eexists. eexists. split; [reflexivity|].
  destruct (started_settings Sample.env _ _ eq_refl)
    as [_ [[Hurl _] [_ [Hkey [_ [Hport _]]]]]].
  split; [|split].
  - exact (eq_sym (f_equal value Hurl)).
  - exact (Hkey "s3cret" eq_refl).
  - apply (Hport "8081"); [reflexivity | discriminate].
Defined.

Lemma startup_log_hides_secrets_witness :
  exists (s1 s2 : Settings) (out : list string),
    startup Sample.env = Running s1 out /\
    startup Sample.rotated_env = Running s2 out /\
    SUPABASE_SERVICE_ROLE_KEY s1 <> SUPABASE_SERVICE_ROLE_KEY s2.
Proof.
  eexists. eexists. eexists. split; [reflexivity|].
  destruct (startup_log_hides_secrets Sample.env Sample.rotated_env _ _ _ _
              eq_refl eq_refl eq_refl eq_refl eq_refl eq_refl) as [Hout _].
  split.
  - rewrite Hout. reflexivity.
  - simpl. discriminate.
Defined.

Lemma role_gate_witness :
  run (Sample.world (fun _ => AxiosFulfilled Sample.teapot))
      (verifyAuth_with_roles Sample.no_role Sample.admin_users
                             (Sample.forward Sample.admin_users))
  = (Some {| res_status := 403;
             res_headers := [];
             res_body := Json (JObj [("error", JStr "Admin access required")]) |},
     [CallIdentityProvider "good-token"]) /\
  match_api (req_path Sample.admin_users_capital) = true /\
  snd (run (Sample.world (fun _ => AxiosFulfilled Sample.teapot))
           (verifyAuth_with_roles Sample.no_role Sample.admin_users_capital
                                  (Sample.forward Sample.admin_users_capital)))
  = [CallIdentityProvider "good-token";
     CallInternalApi (proxy_config Sample.cfg Sample.qs_parse
                                   Sample.admin_users_capital Sample.alice)].
Proof.
  split; [|split; [reflexivity|]].
  - destruct (role_gate Sample.no_role
                (Sample.world (fun _ => AxiosFulfilled Sample.teapot))
                Sample.admin_users (Sample.forward Sample.admin_users)
                "good-token" Sample.alice eq_refl) as [H _];
      [discriminate | reflexivity |].
    apply H; [reflexivity | discriminate].
  - destruct (role_gate Sample.no_role
                (Sample.world (fun _ => AxiosFulfilled Sample.teapot))
                Sample.admin_users_capital
                (Sample.forward Sample.admin_users_capital)
                "good-token" Sample.alice eq_refl) as [_ H];
      [discriminate | reflexivity |].
    destruct H as [role [Hrole Hrun]]; [left; reflexivity|].
    rewrite Hrun, Hrole. reflexivity.
Defined.

Lemma roles_variant_takes_any_value_witness :
  exists k,
    verifyAuth_with_roles Sample.no_role Sample.basic (Sample.forward Sample.basic)
    = GetUser "Basic dXNlcjpwYXNz" k.
Proof.
  apply roles_variant_takes_any_value; [reflexivity | discriminate | reflexivity].
Defined.

Lemma roles_variant_leaves_a_throw_unanswered_witness :
  run (Sample.world_of Sample.is_down (Sample.fails None))
      (verifyAuth_with_roles Sample.no_role Sample.users
                             (Sample.forward Sample.users))
  = (None, [CallIdentityProvider "good-token"]).
Proof.
  destruct (roles_variant_leaves_a_throw_unanswered Sample.no_role
              (Sample.world_of Sample.is_down (Sample.fails None))
              Sample.users (Sample.forward Sample.users) "good-token"
              {| err_code := None; err_message := "fetch failed" |}
              eq_refl) as [H _]; [discriminate | reflexivity |].
  exact H.
Defined.
